(** * PixMorph batch image converter: a shallow embedding and its properties

    The development follows the three source files of the repository:
    - [Types]        : types.ts (enums, [ProcessedFile], [ConversionSettings]);
    - [ImageService] : services/imageService (convertImage, getExtensionFromMime);
    - [App]          : the App component (state updates, startProcessing,
                       download handlers).

    JavaScript values are modelled as the code has them: a [number] is an
    IEEE 754 binary64 float (Rocq's primitive floats), a string is its
    sequence of UTF-16 code units, an optional property is an [option]. *)

From Stdlib Require Import ZArith NArith Floats Bool Ascii String DecimalString.
From Stdlib Require DecimalNat DecimalFacts.
From stdpp Require Import base option list sets gmap.

Set Warnings "-inexact-float".

(* ===================================================================== *)
(** * JavaScript numbers and strings *)
(* ===================================================================== *)

Module JS.

(** ** Numbers *)

Definition number := float.
Bind Scope float_scope with number.

(** An integer seen as a number (exact below 2^53, which covers every
    [unsigned long] of the DOM and every array index). *)
Definition ofZ (n : Z) : number :=
  SF2Prim (binary_normalize prec emax n 0 false).
Definition ofN (n : N) : number := ofZ (Z.of_N n).

Definition isNaN (x : number) : bool := PrimFloat.is_nan x.

Definition isNegZero (x : number) : bool :=
  PrimFloat.is_zero x && PrimFloat.get_sign x.

(** [Math.round]: the integral number closest to [x], ties towards
    +infinity; NaN, the infinities and the zeros are returned as they are,
    and a negative [x] that rounds to zero gives -0. *)
Definition mathRound (x : number) : number :=
  match Prim2SF x with
  | S754_finite s m e =>
      if (0 <=? e)%Z then x
      else
        let v := if s then Z.neg m else Z.pos m in
        let n := ((2 * v + 2 ^ (- e)) `div` 2 ^ (1 - e))%Z in
        if (n =? 0)%Z then (if s then PrimFloat.neg_zero else PrimFloat.zero)
        else ofZ n
  | _ => x
  end.

(** [Math.min(a, b)] and [Math.max(a, b)]: NaN as soon as one argument is
    NaN; -0 counts as smaller than +0. *)
Definition mathMin (a b : number) : number :=
  if isNaN a || isNaN b then PrimFloat.nan
  else if (a <? b)%float then a
  else if (b <? a)%float then b
  else if isNegZero a then a else b.

Definition mathMax (a b : number) : number :=
  if isNaN a || isNaN b then PrimFloat.nan
  else if (a <? b)%float then b
  else if (b <? a)%float then a
  else if isNegZero a then b else a.

(** ** Strings: sequences of UTF-16 code units *)

Definition char := N.
Definition jsstring := list char.

(** A literal of the source whose characters are all ASCII. *)
Definition lit (s : string) : jsstring :=
  N_of_ascii <$> list_ascii_of_string s.

Definition DOT : char := 46%N.          (* '.' *)
Definition UNDERSCORE : char := 95%N.   (* '_' *)

(** WhiteSpace and LineTerminator code points of ECMAScript, the
    characters [String.prototype.trim] strips. *)
Definition isWhiteSpace (c : char) : bool :=
  ((9 <=? c) && (c <=? 13) || (c =? 32) || (c =? 160) || (c =? 5760)
   || (8192 <=? c) && (c <=? 8202)
   || (c =? 8232) || (c =? 8233) || (c =? 8239) || (c =? 8287)
   || (c =? 12288) || (c =? 65279))%N.

Fixpoint dropWhile {A} (p : A → bool) (l : list A) : list A :=
  match l with
  | [] => []
  | x :: l' => if p x then dropWhile p l' else l
  end.

Definition trimStart (s : jsstring) : jsstring := dropWhile isWhiteSpace s.
Definition trimEnd (s : jsstring) : jsstring :=
  reverse (dropWhile isWhiteSpace (reverse s)).
Definition trim (s : jsstring) : jsstring := trimEnd (trimStart s).

(** [s.split(sep)] for a one-character separator. *)
Fixpoint split (sep : char) (s : jsstring) : list jsstring :=
  match s with
  | [] => [[]]
  | c :: s' =>
      if (c =? sep)%N then [] :: split sep s'
      else match split sep s' with
           | [] => [[c]]
           | seg :: segs => (c :: seg) :: segs
           end
  end.

(** [a.slice(0, -1)]: everything but the last element. *)
Definition sliceButLast {A} (a : list A) : list A :=
  take (length a - 1) a.

(** [a.join(sep)]. *)
Fixpoint join (sep : char) (a : list jsstring) : jsstring :=
  match a with
  | [] => []
  | [s] => s
  | s :: a' => s ++ sep :: join sep a'
  end.

(** The string of a non-negative integer number, as a template literal
    renders it. *)
Definition natToString (n : nat) : jsstring :=
  lit (NilZero.string_of_uint (Nat.to_uint n)).

Definition NToString (n : N) : jsstring :=
  lit (NilZero.string_of_uint (N.to_uint n)).

(** Truthiness of a string: only the empty string is falsy. *)
Definition truthy (s : jsstring) : bool :=
  match s with [] => false | _ => true end.

End JS.
Import JS.

(* ===================================================================== *)
(** * types.ts *)
(* ===================================================================== *)

Module Types.

(** [enum OutputFormat]: its members are the three MIME type strings. *)
Inductive OutputFormat := JPEG | PNG | WEBP.

Definition mimeType (f : OutputFormat) : jsstring :=
  match f with
  | JPEG => lit "image/jpeg"
  | PNG => lit "image/png"
  | WEBP => lit "image/webp"
  end.

Inductive ProcessStatus := IDLE | PROCESSING | COMPLETED | ERROR.

#[export] Instance ProcessStatus_eq_dec : EqDecision ProcessStatus.
Proof. solve_decision. Defined.

(** The browser's [File] and [Blob]: a name and the bytes held. *)
Record File := mkFile { name : jsstring; contents : list Byte.byte }.

Definition Blob := list Byte.byte.

(** [interface ProcessedFile]; the properties marked [?] are options. *)
Record ProcessedFile := mkProcessedFile {
  id : jsstring;
  originalFile : File;
  previewUrl : jsstring;
  status : ProcessStatus;
  outputBlob : option Blob;
  newName : option jsstring;
  error : option jsstring
}.

(** [type ResizeMode = 'scale' | 'px' | 'cm']. *)
Inductive ResizeMode := ModeScale | ModePx | ModeCm.

(** [interface ConversionSettings]; [width] and [height] are
    [number | '']: [None] stands for the empty string. *)
Record ConversionSettings := mkSettings {
  format : OutputFormat;
  quality : number;
  resizeMode : ResizeMode;
  scale : number;
  width : option number;
  height : option number;
  maintainAspectRatio : bool;
  baseFilename : jsstring;
  useSequentialNumbering : bool
}.

End Types.
Import Types.

(* ===================================================================== *)
(** * services/imageService *)
(* ===================================================================== *)

(** A decoded [HTMLImageElement]: [img.width] and [img.height] are
    [unsigned long] values of the DOM. *)
Module Img.
Record t := mk { width : N; height : N }.
End Img.

Module ImageService.

(** What the conversion draws: the canvas size assigned, whether a white
    background was filled first, and the [drawImage] call. *)
Record Canvas := mkCanvas {
  canvasWidth : number;
  canvasHeight : number;
  whiteBackground : bool;
  drawnImage : Img.t;
  drawnWidth : number;
  drawnHeight : number
}.

(** The browser primitives [convertImage] calls, each with the outcome the
    code distinguishes: [FileReader] ([onload] with a data URL or
    [onerror]), [Image] ([onload] with a decoded image or [onerror]),
    [canvas.getContext('2d')] (a context or [null]) and [canvas.toBlob]
    (a blob or [null]). *)
Record Browser := mkBrowser {
  readAsDataURL : File → option jsstring;
  loadImage : jsstring → option Img.t;
  getContext2d : number → number → bool;
  toBlob : Canvas → OutputFormat → number → option Blob
}.

(** The value a promise rejects with: an [Error] with its message, or
    something that is not an [Error] (the [ProgressEvent] of
    [reader.onerror]). *)
Inductive Rejection := ErrorObject (message : jsstring) | NotAnError.

Inductive Settled (A : Type) :=
| Resolved (a : A)
| Rejected (r : Rejection).
Arguments Resolved {A} a.
Arguments Rejected {A} r.

Definition CM_TO_PX : number := 37.795%float.

(** Lines 30-38: the requested box, in pixels. [Number(n)] is [n] on a
    number. *)
Definition requestedSize (settings : ConversionSettings)
  : option number * option number :=
  let reqW := width settings in
  let reqH := height settings in
  match resizeMode settings with
  | ModeCm =>
      (match reqW with Some w => Some (w * CM_TO_PX)%float | None => None end,
       match reqH with Some h => Some (h * CM_TO_PX)%float | None => None end)
  | _ => (reqW, reqH)
  end.

(** Lines 25-63: [targetWidth] and [targetHeight] as the resize mode
    computes them. *)
Definition resizedSize (img : Img.t) (settings : ConversionSettings)
  : number * number :=
  let imgW := ofN (Img.width img) in
  let imgH := ofN (Img.height img) in
  match resizeMode settings with
  | ModeScale =>
      (mathRound (imgW * scale settings), mathRound (imgH * scale settings))%float
  | _ =>
      let '(reqW, reqH) := requestedSize settings in
      if maintainAspectRatio settings then
        match reqW, reqH with
        | Some reqW, Some reqH =>
            let scaleW := (reqW / imgW)%float in
            let scaleH := (reqH / imgH)%float in
            let scale := mathMin scaleW scaleH in
            (mathRound (imgW * scale), mathRound (imgH * scale))%float
        | Some reqW, None =>
            (mathRound reqW, mathRound (imgH * (reqW / imgW)))%float
        | None, Some reqH =>
            (mathRound (imgW * (reqH / imgH)), mathRound reqH)%float
        | None, None => (imgW, imgH)
        end
      else
        (match reqW with Some reqW => mathRound reqW | None => imgW end,
         match reqH with Some reqH => mathRound reqH | None => imgH end)
  end.

(** Lines 65-67: the safety check for 0 dimensions. *)
Definition clampSize (size : number * number) : number * number :=
  (mathMax 1%float size.1, mathMax 1%float size.2).

Definition targetSize (img : Img.t) (settings : ConversionSettings)
  : number * number :=
  clampSize (resizedSize img settings).

(** Lines 69-89: the canvas as drawn, for the target size computed. *)
Definition renderCanvas (img : Img.t) (settings : ConversionSettings) : Canvas :=
  let '(targetWidth, targetHeight) := targetSize img settings in
  {| canvasWidth := targetWidth;
     canvasHeight := targetHeight;
     whiteBackground := match format settings with JPEG => true | _ => false end;
     drawnImage := img;
     drawnWidth := targetWidth;
     drawnHeight := targetHeight |}.

Definition convertImage (env : Browser) (file : File)
    (settings : ConversionSettings) : Settled Blob :=
  match readAsDataURL env file with
  | None => Rejected NotAnError
  | Some dataUrl =>
      match loadImage env dataUrl with
      | None => Rejected (ErrorObject (lit "Failed to load image"))
      | Some img =>
          let canvas := renderCanvas img settings in
          if getContext2d env (canvasWidth canvas) (canvasHeight canvas) then
            match toBlob env canvas (format settings) (quality settings) with
            | Some blob => Resolved blob
            | None => Rejected (ErrorObject (lit "Conversion failed"))
            end
          else Rejected (ErrorObject (lit "Could not get canvas context"))
      end
  end.

(** The [default] branch of the switch is not reachable from a value of
    the enum. *)
Definition getExtensionFromMime (mime : OutputFormat) : jsstring :=
  match mime with
  | JPEG => lit "jpg"
  | PNG => lit "png"
  | WEBP => lit "webp"
  end.

End ImageService.
Import ImageService.

(* ===================================================================== *)
(** * The App component *)
(* ===================================================================== *)

Module App.

(** The one string of [utils/translations] the state updates read. *)
Record Translations := mkTranslations { statusFailed : jsstring }.

(** ** Object spreads [{ ...f, ... }] *)

Definition withStatus (s : ProcessStatus) (f : ProcessedFile) : ProcessedFile :=
  {| id := id f; originalFile := originalFile f; previewUrl := previewUrl f;
     status := s;
     outputBlob := outputBlob f; newName := newName f; error := error f |}.

Definition withCompleted (blob : Blob) (baseName : jsstring)
    (f : ProcessedFile) : ProcessedFile :=
  {| id := id f; originalFile := originalFile f; previewUrl := previewUrl f;
     status := COMPLETED;
     outputBlob := Some blob; newName := Some baseName; error := error f |}.

Definition withError (message : jsstring) (f : ProcessedFile) : ProcessedFile :=
  {| id := id f; originalFile := originalFile f; previewUrl := previewUrl f;
     status := ERROR;
     outputBlob := outputBlob f; newName := newName f; error := Some message |}.

(** Lines 35-40: the object [handleFilesSelected] creates for a file, given
    the random id and the preview URL the browser produced. *)
Definition newProcessedFile (entry : jsstring * File * jsstring) : ProcessedFile :=
  let '(newId, file, url) := entry in
  {| id := newId; originalFile := file; previewUrl := url;
     status := IDLE;
     outputBlob := None; newName := None; error := None |}.

(** ** Every change of the [files] state

    The seven [setFiles] calls of the component and the one mutation in
    place ([f.status = ProcessStatus.IDLE], which writes through the objects
    the state array shares with [newFiles]). *)
Inductive Update :=
| AddFiles (entries : list (jsstring * File * jsstring))   (* line 41 *)
| RemoveFile (target : jsstring)                           (* lines 64-65 *)
| ClearAll                                                 (* line 81 *)
| ResetErrors                                              (* lines 91-93 *)
| MarkProcessing (target : jsstring)                       (* lines 100-102 *)
| MarkCompleted (target : jsstring) (blob : Blob) (baseName : jsstring)
                                                           (* lines 124-131 *)
| MarkError (target : jsstring) (message : jsstring)       (* lines 133-139 *)
| ResetAll.                                                (* line 472 *)

(** The callbacks of the [map] and [forEach] calls: what an update makes
    of one file of the array. *)
Definition resetError (f : ProcessedFile) : ProcessedFile :=
  if bool_decide (status f = ERROR) then withStatus IDLE f else f.

Definition updateFile (u : Update) (f : ProcessedFile) : ProcessedFile :=
  match u with
  | ResetErrors => resetError f
  | MarkProcessing target =>
      if bool_decide (id f = target) then withStatus PROCESSING f else f
  | MarkCompleted target blob baseName =>
      if bool_decide (id f = target) then withCompleted blob baseName f else f
  | MarkError target message =>
      if bool_decide (id f = target) then withError message f else f
  | ResetAll => withStatus IDLE f
  | AddFiles _ | RemoveFile _ | ClearAll => f
  end.

Definition applyUpdate (u : Update) (current : list ProcessedFile)
  : list ProcessedFile :=
  match u with
  | AddFiles entries => current ++ (newProcessedFile <$> entries)
  | RemoveFile target => filter (λ f, id f ≠ target) current
  | ClearAll => []
  | ResetErrors | MarkProcessing _ | MarkCompleted _ _ _ | MarkError _ _
  | ResetAll => updateFile u <$> current
  end.

Definition applyUpdates (us : list Update) (current : list ProcessedFile)
  : list ProcessedFile :=
  foldl (λ cur u, applyUpdate u cur) current us.

(** ** startProcessing *)

(** Line 106. *)
Definition originalBaseOf (fileName : jsstring) : jsstring :=
  join DOT (sliceButLast (split DOT fileName)).

(** Lines 105-117: the renaming logic, for the file at [index] of the full
    array. *)
Definition outputBaseName (settings : ConversionSettings)
    (fileItem : ProcessedFile) (index : nat) : jsstring :=
  let originalBase := originalBaseOf (name (originalFile fileItem)) in
  let baseName := trim (baseFilename settings) in
  let baseName := if truthy baseName then baseName else originalBase in
  if useSequentialNumbering settings
  then baseName ++ UNDERSCORE :: natToString (index + 1)
  else baseName.

(** Line 137: [error instanceof Error ? error.message : t.statusFailed]. *)
Definition errorMessage (t : Translations) (r : Rejection) : jsstring :=
  match r with
  | ErrorObject message => message
  | NotAnError => statusFailed t
  end.

(** Line 98: the callbacks that do not return at once, each with the index
    of its file in the full array. *)
Definition tasks (newFiles : list ProcessedFile) : list (nat * ProcessedFile) :=
  filter (λ p, status p.2 ≠ COMPLETED) (imap pair newFiles).

(** Lines 100-102: what a callback queues before its first [await]. *)
Definition onStart (task : nat * ProcessedFile) : Update :=
  MarkProcessing (id task.2).

(** Lines 119-139: what a callback queues once [convertImage] has
    settled. *)
Definition onSettled (env : Browser) (settings : ConversionSettings)
    (t : Translations) (task : nat * ProcessedFile) : Update :=
  match convertImage env (originalFile task.2) settings with
  | Resolved blob =>
      MarkCompleted (id task.2) blob (outputBaseName settings task.2 task.1)
  | Rejected r => MarkError (id task.2) (errorMessage t r)
  end.

(** The updates of one run, in the order they reach the state: the reset
    in place, then one [MarkProcessing] per task in array order (all queued
    synchronously by [newFiles.map]), then one completion or error update
    per task in the order [settled] in which the conversions settle. *)
Definition startProcessingUpdates (env : Browser)
    (settings : ConversionSettings) (t : Translations)
    (settled : list (nat * ProcessedFile)) (files : list ProcessedFile)
  : list Update :=
  let newFiles := applyUpdate ResetErrors files in
  ResetErrors :: (onStart <$> tasks newFiles)
              ++ (onSettled env settings t <$> settled).

Definition startProcessing (env : Browser) (settings : ConversionSettings)
    (t : Translations) (settled : list (nat * ProcessedFile))
    (files : list ProcessedFile) : list ProcessedFile :=
  applyUpdates (startProcessingUpdates env settings t settled files) files.

(** ** Views of a run used in the proofs (not functions of the source) *)

(** The updates that are a [map] (or the in-place [forEach]) over the
    array: they keep its length and the place of every file. *)
Definition inPlace (u : Update) : bool :=
  match u with
  | AddFiles _ | RemoveFile _ | ClearAll => false
  | _ => true
  end.

(** What a sequence of updates makes of one file. *)
Definition updatesOnFile (us : list Update) (f : ProcessedFile) : ProcessedFile :=
  foldl (λ g u, updateFile u g) f us.

(** What one run makes of the file at [index]: a completed file is left
    alone; any other file goes through the error reset, the PROCESSING
    mark and the update of its settled conversion. *)
Definition fileOutcome (env : Browser) (settings : ConversionSettings)
    (t : Translations) (index : nat) (f : ProcessedFile) : ProcessedFile :=
  let fileItem := resetError f in
  if bool_decide (status fileItem = COMPLETED) then fileItem
  else
    match convertImage env (originalFile fileItem) settings with
    | Resolved blob =>
        withCompleted blob (outputBaseName settings fileItem index)
          (withStatus PROCESSING fileItem)
    | Rejected r =>
        withError (errorMessage t r) (withStatus PROCESSING fileItem)
    end.

(** A settling order is any order of the tasks of the run. *)
Definition settlingOrder (files : list ProcessedFile)
    (settled : list (nat * ProcessedFile)) : Prop :=
  settled ≡ₚ tasks (applyUpdate ResetErrors files).

(** ** Downloads *)

Inductive DownloadMode := Zip | Raw.

(** What a download handler does, in order: [FileSaver.saveAs] of a blob,
    [FileSaver.saveAs] of the archive built from the [zip.file] calls
    listed, and the 300 ms pause between raw downloads. *)
Inductive Effect :=
| SaveAs (content : Blob) (fileName : jsstring)
| SaveZip (calls : list (jsstring * Blob)) (fileName : jsstring)
| Pause (ms : nat).

(** [`${file.newName}`]: an absent property is rendered as "undefined". *)
Definition newNameText (file : ProcessedFile) : jsstring :=
  match newName file with
  | Some n => n
  | None => lit "undefined"
  end.

(** Lines 155-156, 168-169 and 190-191. *)
Definition downloadFileName (settings : ConversionSettings)
    (file : ProcessedFile) : jsstring :=
  newNameText file ++ DOT :: getExtensionFromMime (format settings).

Definition isReady (f : ProcessedFile) : Prop :=
  status f = COMPLETED ∧ is_Some (outputBlob f).

#[export] Instance isReady_dec f : Decision (isReady f).
Proof. unfold isReady. apply _. Defined.

Definition zipFileName (now : N) : jsstring :=
  lit "pixmorph_converted_" ++ NToString now ++ lit ".zip".

(** Lines 154-157 and 167-170: the name and blob of a file that has an
    output blob. *)
Definition downloadEntry (settings : ConversionSettings)
    (file : ProcessedFile) : option (jsstring * Blob) :=
  match outputBlob file with
  | Some blob => Some (downloadFileName settings file, blob)
  | None => None
  end.

(** Lines 166-173: one turn of the raw download loop. *)
Definition rawDownload (settings : ConversionSettings)
    (file : ProcessedFile) : list Effect :=
  match downloadEntry settings file with
  | Some (fileName, blob) => [SaveAs blob fileName; Pause 300]
  | None => []
  end.

(** Lines 147-176; [now] is the value of [Date.now()]. *)
Definition handleDownloadFiles (settings : ConversionSettings) (now : N)
    (targetFiles : list ProcessedFile) (mode : DownloadMode) : list Effect :=
  let readyFiles := filter isReady targetFiles in
  if (length readyFiles =? 0)%nat then []
  else
    match mode with
    | Zip =>
        [SaveZip (omap (downloadEntry settings) readyFiles) (zipFileName now)]
    | Raw =>
        mjoin (rawDownload settings <$> readyFiles)
    end.

(** Lines 179-186. *)
Definition onDownloadSelected (settings : ConversionSettings) (now : N)
    (files : list ProcessedFile) (selectedIds : gset jsstring)
    (mode : DownloadMode) : list Effect :=
  let selected := filter (λ f, id f ∈ selectedIds) files in
  handleDownloadFiles settings now selected mode.

Definition onDownloadAll (settings : ConversionSettings) (now : N)
    (files : list ProcessedFile) (mode : DownloadMode) : list Effect :=
  handleDownloadFiles settings now files mode.

(** Lines 188-194. *)
Definition handleDownloadSingle (settings : ConversionSettings)
    (file : ProcessedFile) : list Effect :=
  match outputBlob file with
  | Some blob => [SaveAs blob (downloadFileName settings file)]
  | None => []
  end.

(** Lines 19-29: the settings the component starts with. *)
Definition initialSettings : ConversionSettings :=
  {| format := JPEG; quality := 0.9; resizeMode := ModeScale; scale := 1.0;
     width := None; height := None; maintainAspectRatio := true;
     baseFilename := []; useSequentialNumbering := false |}.

(** Lines 259-340: the resize controls, each a [setSettings] spread. *)
Definition withResize (mode : ResizeMode) (w h : option number) (keep : bool)
    (s : ConversionSettings) : ConversionSettings :=
  {| format := format s; quality := quality s; resizeMode := mode;
     scale := scale s; width := w; height := h; maintainAspectRatio := keep;
     baseFilename := baseFilename s;
     useSequentialNumbering := useSequentialNumbering s |}.

(** Lines 223, 366 and 379: the format and renaming controls. *)
Definition withNaming (fmt : OutputFormat) (base : jsstring) (numbered : bool)
    (s : ConversionSettings) : ConversionSettings :=
  {| format := fmt; quality := quality s; resizeMode := resizeMode s;
     scale := scale s; width := width s; height := height s;
     maintainAspectRatio := maintainAspectRatio s;
     baseFilename := base; useSequentialNumbering := numbered |}.

(** ** Intake, selection and removal *)

(** Lines 34-42. *)
Definition handleFilesSelected (entries : list (jsstring * File * jsstring))
    (prev : list ProcessedFile) : list ProcessedFile :=
  applyUpdate (AddFiles entries) prev.

(** Lines 45-52. *)
Definition handleToggleSelect (target : jsstring) (prev : gset jsstring)
  : gset jsstring :=
  if bool_decide (target ∈ prev) then prev ∖ {[ target ]}
  else prev ∪ {[ target ]}.

(** Lines 54-60. *)
Definition handleSelectAll (files : list ProcessedFile)
    (selectedIds : gset jsstring) : gset jsstring :=
  if bool_decide (size selectedIds = length files) then ∅
  else list_to_set (id <$> files).

(** Lines 63-76: the two states [handleRemoveFile] sets, and the preview
    URL it revokes ([prev.find] gives the first file of that id). *)
Definition handleRemoveFile (target : jsstring)
    (state : list ProcessedFile * gset jsstring)
  : list ProcessedFile * gset jsstring :=
  (applyUpdate (RemoveFile target) state.1, state.2 ∖ {[ target ]}).

Definition revokedOnRemove (target : jsstring) (prev : list ProcessedFile)
  : list jsstring :=
  match List.find (λ f, bool_decide (id f = target)) prev with
  | Some removed => [previewUrl removed]
  | None => []
  end.

(** Lines 79-83. *)
Definition handleClearAll (state : list ProcessedFile * gset jsstring)
  : list ProcessedFile * gset jsstring :=
  (applyUpdate ClearAll state.1, ∅).

Definition revokedOnClear (files : list ProcessedFile) : list jsstring :=
  previewUrl <$> files.

(** ** Values derived at each render *)

(** Lines 196-198. *)
Definition completedCount (files : list ProcessedFile) : nat :=
  length (filter (λ f, status f = COMPLETED) files).

Definition hasFiles (files : list ProcessedFile) : bool :=
  bool_decide (0 < length files).

Definition allCompleted (files : list ProcessedFile) : bool :=
  hasFiles files && bool_decide (0 < completedCount files)
  && bool_decide (completedCount files = length files).

(** Line 485: the [disabled] property of the start button. *)
Definition startDisabled (files : list ProcessedFile) : bool :=
  bool_decide (length (filter (λ f, status f = IDLE) files) = 0).

End App.
Import App.

(* ===================================================================== *)
(** * The specification's wording, as definitions to compare against *)
(* ===================================================================== *)

Module Spec.

(** A width or height input in pixels: centimetre inputs are multiplied by
    37.795 px/cm, pixel inputs are taken as they are. *)
Definition toPixels (mode : ResizeMode) (v : number) : number :=
  match mode with
  | ModeCm => (v * 37.795)%float
  | _ => v
  end.

(** Contain fit: both natural dimensions scaled by the smaller of the two
    implied scale factors, each result rounded. *)
Definition containFit (naturalW naturalH reqW reqH : number)
  : number * number :=
  let factor := mathMin (reqW / naturalW)%float (reqH / naturalH)%float in
  (mathRound (naturalW * factor), mathRound (naturalH * factor))%float.

(** A dimension is at least 1. *)
Definition atLeastOne (x : number) : bool := (1 <=? x)%float.

(** The settings with their centimetre inputs turned into pixel inputs. *)
Definition inPixelMode (s : ConversionSettings) : ConversionSettings :=
  withResize ModePx (toPixels (resizeMode s) <$> width s)
             (toPixels (resizeMode s) <$> height s)
             (maintainAspectRatio s) s.

(** The text of a file name before its last '.': nothing when the name
    holds no '.'. *)
Definition textBeforeLastDot (fileName : jsstring) : jsstring :=
  match dropWhile (λ c, negb (c =? DOT)%N) (reverse fileName) with
  | [] => []
  | _ :: stem => reverse stem
  end.

(** "The original filename minus its extension": the name without its last
    '.' and what follows it; a name without '.' has no extension and is
    left whole. *)
Definition withoutExtension (fileName : jsstring) : jsstring :=
  if bool_decide (DOT ∈ fileName) then textBeforeLastDot fileName
  else fileName.

(** JPEG→jpg, PNG→png, WEBP→webp. *)
Definition extensionOf (fmt : OutputFormat) : jsstring :=
  match fmt with
  | JPEG => lit "jpg"
  | PNG => lit "png"
  | WEBP => lit "webp"
  end.

(** [<base>[_<n>].<ext>] over a reading [originalBase] of the original
    file name: the base name (the trimmed override if it is not empty,
    otherwise [originalBase] of the original file name), then, when
    sequential numbering is enabled, an underscore and the 1-based
    [position], then a dot and the extension of the format. *)
Definition fileNameOver (originalBase : jsstring → jsstring)
    (settings : ConversionSettings) (fileName : jsstring) (position : nat)
    (fmt : OutputFormat) : jsstring :=
  let override := trim (baseFilename settings) in
  let base :=
    match override with
    | [] => originalBase fileName
    | _ => override
    end in
  base
  ++ (if useSequentialNumbering settings
      then UNDERSCORE :: natToString position else [])
  ++ DOT :: extensionOf fmt.

(** The output file name with the original file name read as the text
    before its last '.' (empty for a name without '.'). *)
Definition outputFileName : ConversionSettings → jsstring → nat →
                            OutputFormat → jsstring :=
  fileNameOver textBeforeLastDot.

(** The output file name with the original file name read as the file
    name minus its extension. *)
Definition claimedOutputFileName : ConversionSettings → jsstring → nat →
                                   OutputFormat → jsstring :=
  fileNameOver withoutExtension.

(** The file at place [i] is the only file still to be converted that
    bears its id. *)
Definition soleTaskOfItsId (files : list ProcessedFile) (i : nat)
    (f : ProcessedFile) : Prop :=
  ∀ j g, files !! j = Some g → id g = id f → status g ≠ COMPLETED → j = i.


(** The (file name, blob) pairs of the calls a sequence of effects makes:
    the [saveAs] calls on a blob and the [zip.file] calls behind a saved
    archive.  What the archive keeps of its calls is left to JSZip (a
    second call under one name replaces the first), so for an archive
    these pairs bound its entries from above. *)
Definition downloaded (effects : list Effect) : list (jsstring * Blob) :=
  mjoin ((λ e, match e with
               | SaveAs content fileName => [(fileName, content)]
               | SaveZip calls _ => calls
               | Pause _ => []
               end) <$> effects).

(** A file has an output blob exactly when it has an output name. *)
Definition blobIffName (f : ProcessedFile) : Prop :=
  is_Some (outputBlob f) ↔ is_Some (newName f).

(** A completed file has both outputs. *)
Definition completedHasOutputs (f : ProcessedFile) : Prop :=
  status f = COMPLETED → is_Some (outputBlob f) ∧ is_Some (newName f).

(** The selected ids are ids of listed files. *)
Definition selectionValid (files : list ProcessedFile) (sel : gset jsstring)
  : Prop :=
  ∀ x, x ∈ sel → x ∈ id <$> files.

(** How the safety check treats one dimension. *)
Definition clampedFrom (x r : number) : Prop :=
  (isNaN x = true ∧ r = PrimFloat.nan)
  ∨ (atLeastOne x = true ∧ r = x)
  ∨ (isNaN x = false ∧ atLeastOne x = false ∧ r = 1%float).

End Spec.
Import Spec.

(* ===================================================================== *)
(** * Sample data *)
(* ===================================================================== *)

Module Samples.

(** A browser that decodes every file but "broken.png" to a 400x300 image
    and encodes every canvas to two bytes. *)
Definition browser : Browser :=
  {| readAsDataURL file := Some (lit "data:" ++ name file);
     loadImage dataUrl :=
       if bool_decide (dataUrl = lit "data:broken.png") then None
       else Some (Img.mk 400 300);
     getContext2d _ _ := true;
     toBlob _ _ _ := Some [Byte.x89; Byte.x50] |}.

Definition t : Translations := {| statusFailed := lit "Failed" |}.

Definition idle (i fileName : string) : ProcessedFile :=
  newProcessedFile (lit i, mkFile (lit fileName) [], lit "blob:preview").

(** Three files: one waiting, one that failed before, one already
    converted. *)
Definition waiting : ProcessedFile := idle "f1" "holiday.photo.png".
Definition failed : ProcessedFile :=
  withError (lit "Failed to load image") (idle "f2" "broken.png").
Definition converted : ProcessedFile :=
  withCompleted [Byte.xff] (lit "README_3") (idle "f3" "README").

Definition files : list ProcessedFile := [waiting; failed; converted].

(** An order in which the two conversions of a run over [files] may
    settle: the second file first. *)
Definition settled : list (nat * ProcessedFile) :=
  [(1, resetError failed); (0, waiting)].

Definition numbered : ConversionSettings :=
  withNaming WEBP (lit "  trip ") true initialSettings.

(** A file without a dot in its name, and three idle files that share the
    id "x". *)
Definition readme : ProcessedFile := idle "f4" "README".
Definition twinA : ProcessedFile := idle "x" "a.png".
Definition twinBroken : ProcessedFile := idle "x" "broken.png".


Definition pxSettings (w h : option number) (keep : bool) : ConversionSettings :=
  withResize ModePx w h keep initialSettings.
Definition cmSettings (w h : option number) (keep : bool) : ConversionSettings :=
  withResize ModeCm w h keep initialSettings.

End Samples.

(* ===================================================================== *)
(** * Properties of the conversion engine *)
(* ===================================================================== *)

(** A decidable closed proposition, settled by computing its decision. *)
Ltac decide_by_computation :=
  lazymatch goal with
  | |- ?P => refine (@bool_decide_unpack P _ _); vm_compute; exact I
  end.

Section Numbers.

Example mathRound_ties_up :
  (mathRound 2.5 = 3 ∧ mathRound (-2.5) = -2 ∧ mathRound 0.4 = 0
   ∧ mathRound 149.6 = 150 ∧ mathRound 7 = 7)%float.
Proof. repeat split; vm_compute; reflexivity. Qed.

Example mathRound_special :
  mathRound PrimFloat.nan = PrimFloat.nan
  ∧ mathRound PrimFloat.infinity = PrimFloat.infinity
  ∧ mathRound (-0.3)%float = PrimFloat.neg_zero.
Proof. repeat split; vm_compute; reflexivity. Qed.

Example mathMin_mathMax_examples :
  (mathMin 0.5 0.25 = 0.25 ∧ mathMax 1 0 = 1 ∧ mathMax 1 640 = 640)%float
  ∧ mathMax 1%float PrimFloat.nan = PrimFloat.nan.
Proof. repeat split; vm_compute; reflexivity. Qed.

(** The literal 37.795 denotes the double nearest to 37795/1000. *)
Lemma CM_TO_PX_value : CM_TO_PX = (ofZ 37795 / ofZ 1000)%float.
Proof. vm_compute. reflexivity. Qed.

Lemma SFltb_SFleb (a b : spec_float) : SFltb a b = true → SFleb a b = true.
Proof.
  unfold SFltb, SFleb. destruct (SFcompare a b) as [[]|]; congruence.
Qed.

Lemma ltb_leb (a b : number) : (a <? b)%float = true → (a <=? b)%float = true.
Proof. rewrite ltb_spec, leb_spec. apply SFltb_SFleb. Qed.

Lemma SFcompare_Gt_Lt (a b : spec_float) :
  SFcompare a b = Some Gt → SFcompare b a = Some Lt.
Proof.
  destruct a as [sa|sa| |sa ma ea], b as [sb|sb| |sb mb eb]; cbn;
    try done; try (by destruct sa); try (by destruct sb);
    try (by destruct sa, sb).
  destruct sa, sb; try done.
  - rewrite (Z.compare_antisym ea eb).
    destruct (ea ?= eb)%Z; cbn; try done.
    pose proof (Pos.compare_cont_antisym ma mb Eq) as Hm. cbn in Hm.
    rewrite <- Hm. destruct (Pos.compare_cont Eq ma mb); cbn; congruence.
  - rewrite (Z.compare_antisym ea eb).
    destruct (ea ?= eb)%Z; cbn; try done.
    pose proof (Pos.compare_cont_antisym ma mb Eq) as Hm. cbn in Hm.
    rewrite <- Hm. destruct (Pos.compare_cont Eq ma mb); cbn; congruence.
Qed.

Lemma SFcompare_refl (a : spec_float) :
  a ≠ S754_nan → SFcompare a a = Some Eq.
Proof.
  destruct a as [s|s| |s m e]; cbn; try done; try (by destruct s).
  intros _. rewrite Z.compare_refl, Pos.compare_cont_refl. by destruct s.
Qed.

Lemma SFcompare_total (a b : spec_float) :
  a ≠ S754_nan → b ≠ S754_nan → is_Some (SFcompare a b).
Proof.
  destruct a as [sa|sa| |sa ma ea], b as [sb|sb| |sb mb eb]; cbn; try done.
Qed.

Lemma isNaN_false_Prim2SF (x : number) :
  isNaN x = false → Prim2SF x ≠ S754_nan.
Proof.
  unfold isNaN, is_nan. rewrite FloatAxioms.eqb_spec. intros Hx Hnan.
  by rewrite Hnan in Hx.
Qed.

Lemma leb_refl (x : number) : isNaN x = false → (x <=? x)%float = true.
Proof.
  intros Hx%isNaN_false_Prim2SF. rewrite leb_spec. unfold SFleb.
  by rewrite SFcompare_refl.
Qed.

Lemma not_ltb_leb (a b : number) :
  isNaN a = false → isNaN b = false →
  (b <? a)%float = false → (a <=? b)%float = true.
Proof.
  intros Ha%isNaN_false_Prim2SF Hb%isNaN_false_Prim2SF.
  rewrite ltb_spec, leb_spec. unfold SFltb, SFleb.
  destruct (SFcompare_total _ _ Ha Hb) as [c Hc]. rewrite Hc.
  destruct c; try done. by rewrite (SFcompare_Gt_Lt _ _ Hc).
Qed.

(** [Math.min] of two numbers other than NaN is one of them and is no
    larger than either. *)
Lemma mathMin_smaller (a b : number) :
  isNaN a = false → isNaN b = false →
  (mathMin a b = a ∨ mathMin a b = b)
  ∧ (mathMin a b <=? a)%float = true
  ∧ (mathMin a b <=? b)%float = true.
Proof.
  intros Ha Hb. unfold mathMin. rewrite Ha, Hb. cbn [orb].
  destruct (a <? b)%float eqn:Hab.
  { split; [by left|]. split; [by apply leb_refl|by apply ltb_leb]. }
  destruct (b <? a)%float eqn:Hba.
  { split; [by right|]. split; [by apply ltb_leb|by apply leb_refl]. }
  destruct (isNegZero a).
  - split; [by left|]. split; [by apply leb_refl|by apply not_ltb_leb].
  - split; [by right|]. split; [by apply not_ltb_leb|by apply leb_refl].
Qed.

(** [Math.max(1, x)] is at least 1 whenever [x] is a number other than
    NaN. *)
Lemma mathMax_1_ge (x : number) :
  isNaN x = false → (1 <=? mathMax 1%float x)%float = true.
Proof.
  intros Hx. unfold mathMax. rewrite Hx.
  change (isNaN 1%float) with false. cbn [orb].
  destruct (1 <? x)%float eqn:Hlt.
  - by apply ltb_leb.
  - destruct (x <? 1)%float; [reflexivity|].
    change (isNegZero 1%float) with false. reflexivity.
Qed.

(** ... and it is NaN when [x] is. *)
Lemma mathMax_1_nan (x : number) :
  isNaN x = true → mathMax 1%float x = PrimFloat.nan.
Proof.
  intros Hx. unfold mathMax. rewrite Hx. by rewrite orb_true_r.
Qed.

End Numbers.

Section TargetSize.

Implicit Types (img : Img.t) (settings : ConversionSettings).

Example contain_400x300_in_200x200 :
  targetSize (Img.mk 400 300) (Samples.pxSettings (Some 200%float) (Some 200%float) true)
  = (200, 150)%float.
Proof. vm_compute. reflexivity. Qed.

Example contain_10x5cm :
  targetSize (Img.mk 4000 3000) (Samples.cmSettings (Some 10%float) (Some 5%float) true)
  = (252, 189)%float.
Proof. vm_compute. reflexivity. Qed.

Example scale_rounds_to_zero_then_clamped :
  resizedSize (Img.mk 3 1)
    (withResize ModeScale None None true
       (mkSettings JPEG 0.9 ModeScale 0.1 None None true [] false))
  = (0, 0)%float
  ∧ targetSize (Img.mk 3 1)
      (mkSettings JPEG 0.9 ModeScale 0.1 None None true [] false)
    = (1, 1)%float.
Proof. split; vm_compute; reflexivity. Qed.

Lemma requestedSize_toPixels settings :
  resizeMode settings ≠ ModeScale →
  requestedSize settings
  = (toPixels (resizeMode settings) <$> width settings,
     toPixels (resizeMode settings) <$> height settings).
Proof.
  unfold requestedSize, toPixels. intros Hmode.
  destruct (resizeMode settings), (width settings), (height settings);
    done.
Qed.

(** C2. In pixel or centimetre mode, with the aspect ratio preserved and
    both width and height given, the size computed is the contain fit: both
    natural dimensions scaled by the smaller of (requested width / natural
    width) and (requested height / natural height), each rounded; the final
    size is that one clamped.  The factor is one of the two implied scale
    factors and is no larger than either, whenever neither is NaN. *)
Theorem contain_fit_when_both_given img settings (w h : number) :
  resizeMode settings ≠ ModeScale →
  maintainAspectRatio settings = true →
  width settings = Some w →
  height settings = Some h →
  let W := ofN (Img.width img) in
  let H := ofN (Img.height img) in
  let scaleW := (toPixels (resizeMode settings) w / W)%float in
  let scaleH := (toPixels (resizeMode settings) h / H)%float in
  let fit := containFit W H (toPixels (resizeMode settings) w)
               (toPixels (resizeMode settings) h) in
  resizedSize img settings = fit
  ∧ targetSize img settings = clampSize fit
  ∧ fit = (mathRound (W * mathMin scaleW scaleH),
           mathRound (H * mathMin scaleW scaleH))%float
  ∧ (isNaN scaleW = false → isNaN scaleH = false →
     (mathMin scaleW scaleH = scaleW ∨ mathMin scaleW scaleH = scaleH)
     ∧ (mathMin scaleW scaleH <=? scaleW)%float = true
     ∧ (mathMin scaleW scaleH <=? scaleH)%float = true).
Proof.
  intros Hmode Hkeep Hw Hh W H scaleW scaleH fit.
  assert (resizedSize img settings = fit) as Hfit.
  { unfold resizedSize. rewrite (requestedSize_toPixels _ Hmode), Hkeep, Hw, Hh.
    destruct (resizeMode settings); [done|reflexivity..]. }
  split; [exact Hfit|]. split; [unfold targetSize; by rewrite Hfit|].
  split; [reflexivity|]. apply mathMin_smaller.
Qed.

Lemma contain_fit_when_both_given_witness :
  resizedSize (Img.mk 400 300)
    (Samples.pxSettings (Some 200%float) (Some 200%float) true)
  = (200, 150)%float
  ∧ (mathMin (200 / 400) (200 / 300) <=? 200 / 300)%float = true.
Proof.
  destruct (contain_fit_when_both_given (Img.mk 400 300)
              (Samples.pxSettings (Some 200%float) (Some 200%float) true)
              200%float 200%float)
    as (Hfit & _ & _ & Hmin); [discriminate|reflexivity..|].
  split.
  - rewrite Hfit. vm_compute. reflexivity.
  - destruct Hmin as (_ & _ & Hle); [reflexivity..|]. exact Hle.
Defined.

(** C3. In pixel or centimetre mode: with the aspect ratio preserved and
    exactly one dimension given, the given one is used, rounded, and the
    other is the natural one times (given / natural) of the given side,
    rounded; with neither given the natural size is passed through; with
    the aspect ratio not preserved each given dimension is used, rounded,
    and an absent one is the natural one.  The final size is the clamp of
    the size so computed. *)
Theorem one_sided_and_stretch img settings :
  resizeMode settings ≠ ModeScale →
  let W := ofN (Img.width img) in
  let H := ofN (Img.height img) in
  let px := toPixels (resizeMode settings) in
  (maintainAspectRatio settings = true →
   ∀ w, width settings = Some w → height settings = None →
        resizedSize img settings
        = (mathRound (px w), mathRound (H * (px w / W)))%float)
  ∧ (maintainAspectRatio settings = true →
     ∀ h, width settings = None → height settings = Some h →
          resizedSize img settings
          = (mathRound (W * (px h / H)), mathRound (px h))%float)
  ∧ (width settings = None → height settings = None →
     resizedSize img settings = (W, H))
  ∧ (maintainAspectRatio settings = false →
     resizedSize img settings
     = (from_option (λ w, mathRound (px w)) W (width settings),
        from_option (λ h, mathRound (px h)) H (height settings)))
  ∧ targetSize img settings = clampSize (resizedSize img settings).
Proof.
  intros Hmode W H px. unfold targetSize, resizedSize.
  rewrite (requestedSize_toPixels _ Hmode). fold W H px.
  destruct (resizeMode settings) eqn:Hm; [done| |];
    (split; [|split; [|split; [|split]]];
     [ intros -> w -> ->; reflexivity
     | intros -> h -> ->; reflexivity
     | intros -> ->; by destruct (maintainAspectRatio settings)
     | intros ->; destruct (width settings), (height settings); reflexivity
     | reflexivity ]).
Qed.

Lemma one_sided_and_stretch_witness :
  resizedSize (Img.mk 400 300) (Samples.pxSettings (Some 200%float) None true)
  = (200, 150)%float
  ∧ resizedSize (Img.mk 400 300) (Samples.cmSettings None (Some 2%float) true)
    = (101, 76)%float
  ∧ resizedSize (Img.mk 400 300) (Samples.pxSettings None None true) = (400, 300)%float
  ∧ resizedSize (Img.mk 400 300) (Samples.pxSettings None (Some 99.5%float) false)
    = (400, 100)%float.
Proof.
  pose proof (one_sided_and_stretch (Img.mk 400 300)
                (Samples.pxSettings (Some 200%float) None true)
                ltac:(discriminate)) as (Hw & _).
  pose proof (one_sided_and_stretch (Img.mk 400 300)
                (Samples.cmSettings None (Some 2%float) true)
                ltac:(discriminate)) as (_ & Hh & _).
  pose proof (one_sided_and_stretch (Img.mk 400 300)
                (Samples.pxSettings None None true)
                ltac:(discriminate)) as (_ & _ & Hnone & _).
  pose proof (one_sided_and_stretch (Img.mk 400 300)
                (Samples.pxSettings None (Some 99.5%float) false)
                ltac:(discriminate)) as (_ & _ & _ & Hstretch & _).
  split; [|split; [|split]].
  - rewrite (Hw eq_refl 200%float eq_refl eq_refl). vm_compute. reflexivity.
  - rewrite (Hh eq_refl 2%float eq_refl eq_refl). vm_compute. reflexivity.
  - rewrite (Hnone eq_refl eq_refl). vm_compute. reflexivity.
  - rewrite (Hstretch eq_refl). vm_compute. reflexivity.
Defined.

(** C8. In centimetre mode each given input is multiplied by the constant
    37.795 before the target size is computed, and an absent input stays
    absent; in pixel mode the inputs are used as they are.  The target size
    of a centimetre request is that of the pixel request with the converted
    inputs. *)
Theorem centimetres_to_pixels img settings :
  CM_TO_PX = 37.795%float
  ∧ (resizeMode settings = ModeCm →
     requestedSize settings
     = ((λ v, v * 37.795)%float <$> width settings,
        (λ v, v * 37.795)%float <$> height settings)
     ∧ resizedSize img settings = resizedSize img (inPixelMode settings))
  ∧ (resizeMode settings = ModePx →
     requestedSize settings = (width settings, height settings)).
Proof.
  split; [reflexivity|]. split.
  - intros Hcm. split.
    + unfold requestedSize. rewrite Hcm.
      by destruct (width settings), (height settings).
    + unfold resizedSize, requestedSize, inPixelMode. rewrite Hcm. cbn.
      destruct (maintainAspectRatio settings),
        (width settings), (height settings); reflexivity.
  - intros Hpx. unfold requestedSize. by rewrite Hpx.
Qed.

Lemma centimetres_to_pixels_witness :
  requestedSize (Samples.cmSettings (Some 10%float) None true)
  = (Some 377.95000000000005%float, None)
  ∧ requestedSize (Samples.pxSettings (Some 10%float) None true)
    = (Some 10%float, None).
Proof.
  pose proof (centimetres_to_pixels (Img.mk 1 1)
                (Samples.cmSettings (Some 10%float) None true)) as (_ & Hcm & _).
  pose proof (centimetres_to_pixels (Img.mk 1 1)
                (Samples.pxSettings (Some 10%float) None true)) as (_ & _ & Hpx).
  split.
  - destruct (Hcm eq_refl) as [-> _]. vm_compute. reflexivity.
  - rewrite (Hpx eq_refl). reflexivity.
Defined.

(** The clamp does its work on every size that holds no NaN. *)
Lemma clampSize_at_least_one (size : number * number) :
  isNaN size.1 = false → isNaN size.2 = false →
  atLeastOne (clampSize size).1 = true ∧ atLeastOne (clampSize size).2 = true.
Proof.
  intros H1 H2. unfold atLeastOne, clampSize. cbn [fst snd].
  split; by apply mathMax_1_ge.
Qed.

(** C4, at an image of natural height 0 (pixel mode, aspect ratio
    preserved, width 100, no height): the derived height is
    [Math.round(0 * (100 / 0))], which is NaN, and [Math.max(1, NaN)] is NaN:
    the final height is not at least 1. *)
Theorem clamp_lets_nan_through :
  let img := Img.mk 0 0 in
  let settings := Samples.pxSettings (Some 100%float) None true in
  resizedSize img settings = (100%float, PrimFloat.nan)
  ∧ targetSize img settings = (100%float, PrimFloat.nan)
  ∧ atLeastOne (targetSize img settings).2 = false.
Proof. repeat split; vm_compute; reflexivity. Qed.

(** The same happens for any image once a NaN reaches the settings. *)
Example nan_scale_gives_nan_size :
  targetSize (Img.mk 400 300)
    (mkSettings JPEG 0.9 ModeScale PrimFloat.nan None None true [] false)
  = (PrimFloat.nan, PrimFloat.nan).
Proof. vm_compute. reflexivity. Qed.

End TargetSize.

(* ===================================================================== *)
(** * Properties of the string operations *)
(* ===================================================================== *)

Section Strings.

Implicit Types (s : jsstring) (c sep : char).

Lemma split_not_nil sep s : split sep s ≠ [].
Proof.
  destruct s as [|c s]; cbn; [done|].
  destruct (c =? sep)%N; [done|]. by destruct (split sep s).
Qed.

Lemma split_no_sep sep s : sep ∉ s → split sep s = [s].
Proof.
  induction s as [|c s IH]; [done|]. intros Hnotin.
  apply not_elem_of_cons in Hnotin as [Hne Hnotin]. cbn.
  destruct (N.eqb_spec c sep) as [->|_]; [done|]. by rewrite IH.
Qed.

Lemma split_app_sep sep s1 s2 :
  split sep (s1 ++ sep :: s2) = split sep s1 ++ split sep s2.
Proof.
  induction s1 as [|c s1 IH]; cbn.
  - by rewrite N.eqb_refl.
  - destruct (c =? sep)%N; rewrite IH; [done|].
    pose proof (split_not_nil sep s1). by destruct (split sep s1).
Qed.

(** Joining what was split gives the string back. *)
Lemma join_split sep s : join sep (split sep s) = s.
Proof.
  induction s as [|c s IH]; [done|]. cbn.
  pose proof (split_not_nil sep s) as Hne.
  destruct (N.eqb_spec c sep) as [->|_].
  - destruct (split sep s) as [|seg segs]; [done|]. cbn in *. by rewrite IH.
  - destruct (split sep s) as [|seg segs]; [done|].
    destruct segs; cbn in *; by rewrite <- IH.
Qed.

Lemma sliceButLast_snoc {A} (l : list A) (x : A) : sliceButLast (l ++ [x]) = l.
Proof.
  unfold sliceButLast. rewrite length_app. cbn.
  replace (length l + 1 - 1) with (length l) by lia.
  by rewrite take_app_length.
Qed.

(** Every string either holds no separator or splits at its last one. *)
Lemma last_sep sep s :
  sep ∉ s ∨ ∃ stem ext, s = stem ++ sep :: ext ∧ sep ∉ ext.
Proof.
  induction s as [|c s [Hnone|(stem & ext & -> & Hext)]].
  - left. apply not_elem_of_nil.
  - destruct (decide (c = sep)) as [->|Hne].
    + right. by exists [], s.
    + left. by apply not_elem_of_cons.
  - right. by exists (c :: stem), ext.
Qed.

Lemma dropWhile_not_sep sep s1 s2 :
  sep ∉ s1 →
  dropWhile (λ c, negb (c =? sep)%N) (s1 ++ sep :: s2) = sep :: s2.
Proof.
  induction s1 as [|c s1 IH]; cbn.
  - by rewrite N.eqb_refl.
  - intros [Hne Hnotin]%not_elem_of_cons.
    destruct (N.eqb_spec c sep) as [->|_]; [done|]. by apply IH.
Qed.

Lemma dropWhile_all {A} (p : A → bool) (l : list A) :
  Forall (λ x, p x = true) l → dropWhile p l = [].
Proof. induction 1 as [|x l Hx _ IH]; [done|]. cbn. by rewrite Hx. Qed.

(** [name.split('.').slice(0, -1).join('.')] is the name minus its
    extension. *)
Lemma originalBaseOf_textBeforeLastDot s : originalBaseOf s = textBeforeLastDot s.
Proof.
  unfold originalBaseOf, textBeforeLastDot.
  destruct (last_sep DOT s) as [Hnone|(stem & ext & -> & Hext)].
  - rewrite split_no_sep by done. cbn.
    rewrite dropWhile_all; [done|].
    apply Forall_forall. intros c Hc. rewrite elem_of_reverse in Hc. cbn beta.
    destruct (N.eqb_spec c DOT) as [->|_]; done.
  - rewrite split_app_sep, (split_no_sep _ ext) by done.
    rewrite sliceButLast_snoc, join_split.
    rewrite reverse_app, reverse_cons, <- app_assoc. cbn.
    rewrite dropWhile_not_sep; [by rewrite reverse_involutive|].
    by rewrite elem_of_reverse.
Qed.

Lemma textBeforeLastDot_with_dot stem ext :
  DOT ∉ ext → textBeforeLastDot (stem ++ DOT :: ext) = stem.
Proof.
  intros Hext. unfold textBeforeLastDot.
  rewrite reverse_app, reverse_cons, <- app_assoc. cbn.
  rewrite dropWhile_not_sep; [by rewrite reverse_involutive|].
  by rewrite elem_of_reverse.
Qed.

Lemma originalBaseOf_no_dot s : DOT ∉ s → originalBaseOf s = [].
Proof.
  intros Hs. unfold originalBaseOf.
  rewrite split_no_sep by done. reflexivity.
Qed.

Lemma trim_whitespace_only s :
  Forall (λ c, isWhiteSpace c = true) s → trim s = [].
Proof.
  intros Hs. unfold trim, trimStart, trimEnd.
  by rewrite (dropWhile_all _ s).
Qed.

Lemma truthy_nil_iff s : truthy s = false ↔ s = [].
Proof. by destruct s. Qed.

Example originalBaseOf_examples :
  originalBaseOf (lit "photo.png") = lit "photo"
  ∧ originalBaseOf (lit "my.holiday.photo.jpeg") = lit "my.holiday.photo"
  ∧ originalBaseOf (lit "README") = []
  ∧ originalBaseOf (lit ".gitignore") = [].
Proof. repeat split. Qed.

Example trim_examples :
  trim (lit "  holiday ") = lit "holiday"
  ∧ trim (12288 :: lit "a b" ++ [9; 10])%N = lit "a b"
  ∧ trim [32; 12288; 160]%N = [].
Proof. repeat split. Qed.

Example natToString_examples :
  natToString 1 = lit "1" ∧ natToString 120 = lit "120".
Proof. repeat split. Qed.

End Strings.

(* ===================================================================== *)
(** * Properties of the state updates and of a batch run *)
(* ===================================================================== *)

Section Updates.

Implicit Types (f g : ProcessedFile) (u : Update) (us : list Update)
  (fs files : list ProcessedFile) (task : nat * ProcessedFile)
  (ts settled : list (nat * ProcessedFile)).

Lemma id_resetError f : id (resetError f) = id f.
Proof. unfold resetError. by case_bool_decide. Qed.

Lemma id_updateFile u f : id (updateFile u f) = id f.
Proof.
  destruct u; cbn; try done; try (by case_bool_decide).
  apply id_resetError.
Qed.

Lemma id_updatesOnFile us f : id (updatesOnFile us f) = id f.
Proof.
  revert f. induction us as [|u us IH]; intros f; [done|].
  cbn. unfold updatesOnFile in IH. by rewrite IH, id_updateFile.
Qed.

Lemma applyUpdate_inPlace u fs :
  inPlace u = true → applyUpdate u fs = updateFile u <$> fs.
Proof. by destruct u. Qed.

Lemma applyUpdates_inPlace us fs :
  Forall (λ u, inPlace u = true) us →
  applyUpdates us fs = updatesOnFile us <$> fs.
Proof.
  intros Hus. revert fs.
  induction Hus as [|u us Hu _ IH]; intros fs.
  - cbn. by rewrite list_fmap_id.
  - cbn. unfold applyUpdates in IH. rewrite IH, (applyUpdate_inPlace _ _ Hu).
    by rewrite <- list_fmap_compose.
Qed.

Lemma updatesOnFile_cons u us f :
  updatesOnFile (u :: us) f = updatesOnFile us (updateFile u f).
Proof. done. Qed.

Lemma updatesOnFile_app us1 us2 f :
  updatesOnFile (us1 ++ us2) f = updatesOnFile us2 (updatesOnFile us1 f).
Proof. apply foldl_app. Qed.

(** The PROCESSING marks of a run, seen from one file. *)
Lemma updatesOnFile_onStart ts f :
  updatesOnFile (onStart <$> ts) f
  = if bool_decide (id f ∈ (λ task, id task.2) <$> ts)
    then withStatus PROCESSING f else f.
Proof.
  revert f. induction ts as [|task ts IH]; intros f; [done|].
  rewrite !fmap_cons, updatesOnFile_cons, IH, id_updateFile. clear IH.
  unfold onStart. cbn [updateFile].
  destruct (decide (id f = id task.2)) as [Heq|Hne].
  - rewrite (bool_decide_eq_true_2 (id f = _)) by done.
    rewrite (bool_decide_eq_true_2 (_ ∈ _ :: _)) by (rewrite Heq; left).
    by case_bool_decide.
  - rewrite (bool_decide_eq_false_2 (id f = _)) by done.
    rewrite (bool_decide_ext (id f ∈ id task.2 :: _) (id f ∈ (λ task, id task.2) <$> ts));
      [done|]. rewrite elem_of_cons. intuition.
Qed.

(** The update of a settled conversion leaves the files of other ids
    alone. *)
Lemma updateFile_onSettled_other env settings t task f :
  id f ≠ id task.2 → updateFile (onSettled env settings t task) f = f.
Proof.
  intros Hne. unfold onSettled.
  destruct (convertImage _ _ _); cbn; by rewrite bool_decide_eq_false_2.
Qed.

Lemma updatesOnFile_onSettled_other env settings t ts f :
  id f ∉ (λ task, id task.2) <$> ts →
  updatesOnFile (onSettled env settings t <$> ts) f = f.
Proof.
  induction ts as [|task ts IH]; [done|].
  rewrite !fmap_cons, updatesOnFile_cons.
  intros [Hne Hnotin]%not_elem_of_cons.
  rewrite updateFile_onSettled_other by done. by apply IH.
Qed.

Lemma tasks_elem fs task :
  task ∈ tasks fs ↔ fs !! task.1 = Some task.2 ∧ status task.2 ≠ COMPLETED.
Proof.
  unfold tasks. rewrite list_elem_of_filter. destruct task as [i f]. cbn.
  split.
  - intros [Hst (j & g & [= -> ->] & Hj)%elem_of_lookup_imap_1]. done.
  - intros [Hi Hst]. split; [done|].
    by apply (elem_of_lookup_imap_2 pair) in Hi.
Qed.

Lemma NoDup_tasks fs : NoDup (tasks fs).
Proof.
  unfold tasks. apply NoDup_filter, NoDup_alt. intros i j [k f].
  rewrite !list_lookup_imap_Some.
  by intros (? & _ & [= -> _]) (? & _ & [= -> _]).
Qed.

Lemma ids_unique fs i j f g :
  NoDup (id <$> fs) → fs !! i = Some f → fs !! j = Some g →
  id f = id g → i = j.
Proof.
  intros Hnd Hi Hj Heq.
  apply (NoDup_lookup _ i j (id f) Hnd); rewrite list_lookup_fmap.
  - by rewrite Hi.
  - by rewrite Hj, Heq.
Qed.

Lemma ids_resetErrors fs : id <$> applyUpdate ResetErrors fs = id <$> fs.
Proof.
  cbn. rewrite <- list_fmap_compose. apply list_fmap_ext.
  intros i f _. apply id_resetError.
Qed.

Lemma lookup_resetErrors fs i :
  applyUpdate ResetErrors fs !! i = resetError <$> fs !! i.
Proof. cbn [applyUpdate]. by rewrite list_lookup_fmap. Qed.

Lemma startProcessingUpdates_inPlace env settings t settled files :
  Forall (λ u, inPlace u = true)
    (startProcessingUpdates env settings t settled files).
Proof.
  constructor; [done|].
  apply Forall_app. split; apply Forall_fmap, Forall_true.
  - done.
  - intros task. unfold onSettled. cbn. by destruct (convertImage _ _ _).
Qed.

End Updates.

(* ===================================================================== *)
(** * Output names *)
(* ===================================================================== *)

Section Naming.

Implicit Types (f : ProcessedFile) (files : list ProcessedFile)
  (settings current : ConversionSettings).



(** The two readings of the original file name part only on a name
    without a dot that no override replaces. *)
Lemma outputFileName_as_claimed settings fileName position fmt :
  DOT ∈ fileName ∨ trim (baseFilename settings) ≠ [] →
  claimedOutputFileName settings fileName position fmt
  = outputFileName settings fileName position fmt.
Proof.
  unfold claimedOutputFileName, outputFileName, fileNameOver, withoutExtension.
  intros [Hdot|Hoverride].
  - by rewrite bool_decide_eq_true_2.
  - by destruct (trim (baseFilename settings)).
Qed.

Lemma status_resetError_not_completed f :
  status f ≠ COMPLETED → status (resetError f) ≠ COMPLETED.
Proof. unfold resetError. by case_bool_decide. Qed.

Lemma resetError_completed f : status f = COMPLETED → resetError f = f.
Proof.
  intros Hst. unfold resetError. rewrite bool_decide_eq_false_2; [done|].
  by rewrite Hst.
Qed.

Lemma originalFile_resetError f : originalFile (resetError f) = originalFile f.
Proof. unfold resetError. by case_bool_decide. Qed.

Lemma outputs_resetError f :
  outputBlob (resetError f) = outputBlob f ∧ newName (resetError f) = newName f.
Proof. unfold resetError. by case_bool_decide. Qed.

(** C10. With an empty or whitespace-only override and an original name
    that holds no dot, the base name computed is empty: the output file is
    named [.<ext>], or [_<n>.<ext>] with sequential numbering. *)
Theorem dotless_name_gives_empty_base settings f index :
  Forall (λ c, isWhiteSpace c = true) (baseFilename settings) →
  DOT ∉ name (originalFile f) →
  originalBaseOf (name (originalFile f)) = []
  ∧ outputBaseName settings f index
    = (if useSequentialNumbering settings
       then UNDERSCORE :: natToString (index + 1) else [])
  ∧ ∀ current blob,
      downloadFileName current
        (withCompleted blob (outputBaseName settings f index) f)
      = (if useSequentialNumbering settings
         then UNDERSCORE :: natToString (index + 1) else [])
        ++ DOT :: getExtensionFromMime (format current).
Proof.
  intros Hblank Hdot.
  assert (outputBaseName settings f index
          = if useSequentialNumbering settings
            then UNDERSCORE :: natToString (index + 1) else []) as Hbase.
  { unfold outputBaseName.
    rewrite (trim_whitespace_only _ Hblank), (originalBaseOf_no_dot _ Hdot).
    reflexivity. }
  split; [by apply originalBaseOf_no_dot|]. split; [exact Hbase|].
  intros current blob. unfold downloadFileName, newNameText.
  cbn [newName withCompleted]. by rewrite Hbase.
Qed.

Lemma dotless_name_gives_empty_base_witness :
  outputBaseName (withNaming JPEG (lit "  ") true initialSettings)
    (Samples.idle "f3" "README") 2 = lit "_3"
  ∧ downloadFileName (withNaming JPEG (lit "  ") false initialSettings)
      (withCompleted []
         (outputBaseName (withNaming JPEG (lit "  ") false initialSettings)
            (Samples.idle "f3" "README") 2)
         (Samples.idle "f3" "README"))
    = lit ".jpg".
Proof.
  split.
  - destruct (dotless_name_gives_empty_base
                (withNaming JPEG (lit "  ") true initialSettings)
                (Samples.idle "f3" "README") 2) as (_ & -> & _).
    + repeat constructor.
    + decide_by_computation.
    + reflexivity.
  - destruct (dotless_name_gives_empty_base
                (withNaming JPEG (lit "  ") false initialSettings)
                (Samples.idle "f3" "README") 2) as (_ & _ & ->).
    + repeat constructor.
    + decide_by_computation.
    + reflexivity.
Defined.

End Naming.

(* ===================================================================== *)
(** * One run of the batch *)
(* ===================================================================== *)

Section Run.

Context (env : Browser) (settings : ConversionSettings) (t : Translations)
  (files : list ProcessedFile) (settled : list (nat * ProcessedFile)).

(** The ids identify the files of the array, and the conversions settle
    in some order. *)
Hypothesis ids_distinct : NoDup (id <$> files).
Hypothesis settled_in_order : settlingOrder files settled.

Implicit Types (f g : ProcessedFile) (task : nat * ProcessedFile)
  (ts : list (nat * ProcessedFile)).

Lemma task_of_id i f task :
  applyUpdate ResetErrors files !! i = Some f →
  task ∈ tasks (applyUpdate ResetErrors files) →
  id task.2 = id f →
  task = (i, f).
Proof.
  destruct task as [j g]. intros Hi [Hj Hst]%tasks_elem Heq. cbn in *.
  assert (j = i) as ->.
  { apply (ids_unique (applyUpdate ResetErrors files) j i g f);
      [|done..]. by rewrite ids_resetErrors. }
  congruence.
Qed.

(** No task bears the id of a completed file. *)
Lemma completed_file_untargeted i f ts :
  applyUpdate ResetErrors files !! i = Some f →
  status f = COMPLETED →
  ts ⊆ tasks (applyUpdate ResetErrors files) →
  id f ∉ (λ task, id task.2) <$> ts.
Proof.
  intros Hi Hdone Hsub (task & Heq & Hin%Hsub)%list_elem_of_fmap.
  pose proof (task_of_id _ _ _ Hi Hin (eq_sym Heq)) as ->.
  apply tasks_elem in Hin as [_ Hst]. by apply Hst.
Qed.

(** The task of a file is the only one that bears its id. *)
Lemma other_tasks_untargeted i f g ts :
  applyUpdate ResetErrors files !! i = Some f →
  ts ⊆ tasks (applyUpdate ResetErrors files) →
  (i, f) ∉ ts →
  id g = id f →
  id g ∉ (λ task, id task.2) <$> ts.
Proof.
  intros Hi Hsub Hnotin Hg (task & Heq & Hin)%list_elem_of_fmap.
  apply Hnotin. rewrite <- (task_of_id i f task); [done..| |congruence].
  by apply Hsub.
Qed.

(** What the updates of the run make of the file at place [i]. *)
Lemma outcome_of_file i f :
  files !! i = Some f →
  updatesOnFile (startProcessingUpdates env settings t settled files) f
  = fileOutcome env settings t i f.
Proof.
  intros Hi. unfold startProcessingUpdates, fileOutcome.
  rewrite updatesOnFile_cons, updatesOnFile_app, updatesOnFile_onStart.
  cbn [updateFile]. set (fileItem := resetError f).
  assert (applyUpdate ResetErrors files !! i = Some fileItem) as Hi'
    by (by rewrite lookup_resetErrors, Hi).
  pose proof settled_in_order as Hperm. unfold settlingOrder in Hperm.
  destruct (decide (status fileItem = COMPLETED)) as [Hdone|Hdone];
    [rewrite (bool_decide_eq_true_2 (status _ = _)) by done
    |rewrite (bool_decide_eq_false_2 (status _ = _)) by done].
  - (* a completed file: neither marked nor settled *)
    rewrite bool_decide_eq_false_2
      by (by eapply completed_file_untargeted).
    apply updatesOnFile_onSettled_other.
    eapply completed_file_untargeted; [done..|].
    intros task. by rewrite Hperm.
  - (* a task: marked, then settled exactly once *)
    assert ((i, fileItem) ∈ tasks (applyUpdate ResetErrors files)) as Hin
      by (by apply tasks_elem).
    rewrite bool_decide_eq_true_2
      by (apply list_elem_of_fmap; by exists (i, fileItem)).
    assert (NoDup settled) as Hnd by (rewrite Hperm; apply NoDup_tasks).
    assert ((i, fileItem) ∈ settled) as Hin' by (by rewrite Hperm).
    apply list_elem_of_split in Hin' as (l1 & l2 & Hsplit).
    rewrite Hsplit in Hnd, Hperm |- *.
    apply NoDup_app in Hnd as (_ & Hl1 & [Hl2 _]%NoDup_cons).
    assert (∀ ts, ts ⊆ l1 ++ (i, fileItem) :: l2 →
                  ts ⊆ tasks (applyUpdate ResetErrors files)) as Hsub.
    { intros ts Hts task Htask. rewrite <- Hperm. by apply Hts. }
    rewrite fmap_app, fmap_cons, updatesOnFile_app.
    rewrite updatesOnFile_onSettled_other; cycle 1.
    { eapply (other_tasks_untargeted i fileItem); [done| |  |done].
      - apply Hsub. set_solver.
      - intros Hin1. apply (Hl1 _ Hin1). left. }
    rewrite updatesOnFile_cons.
    rewrite updatesOnFile_onSettled_other; cycle 1.
    { eapply (other_tasks_untargeted i fileItem); [done| |done|].
      - apply Hsub. set_solver.
      - by rewrite id_updateFile. }
    unfold onSettled. cbn [fst snd].
    destruct (convertImage _ _ _); cbn; by rewrite bool_decide_eq_true_2.
Qed.

(** The state a run leaves does not depend on the order in which the
    conversions settle: every file ends as [fileOutcome] says, at its own
    place in the array. *)
Lemma startProcessing_outcome :
  startProcessing env settings t settled files
  = imap (fileOutcome env settings t) files.
Proof.
  unfold startProcessing.
  rewrite applyUpdates_inPlace; cycle 1.
  { constructor; [done|].
    apply Forall_app. split; apply Forall_fmap, Forall_true.
    - done.
    - intros task. unfold onSettled. cbn. by destruct (convertImage _ _ _). }
  apply list_eq. intros i. rewrite list_lookup_fmap, list_lookup_imap.
  destruct (files !! i) as [f|] eqn:Hi; [|done].
  cbn -[updatesOnFile fileOutcome startProcessingUpdates].
  by rewrite (outcome_of_file i f Hi).
Qed.

Lemma lookup_startProcessing i f :
  files !! i = Some f →
  startProcessing env settings t settled files !! i
  = Some (fileOutcome env settings t i f).
Proof.
  intros Hi. by rewrite startProcessing_outcome, list_lookup_imap, Hi.
Qed.

End Run.

Example skipped_files_still_count :
  newName <$> startProcessing Samples.browser
                (withNaming PNG [] true initialSettings) Samples.t
                [(2, Samples.waiting); (1, resetError Samples.failed)]
                (reverse Samples.files) !! 2
  = Some (Some (lit "holiday.photo_3")).
Proof. vm_compute. reflexivity. Qed.

(* ===================================================================== *)
(** * Files that share an id *)
(* ===================================================================== *)

(** The updates of a run find their file by id (lines 100-102, 124-131 and
    133-139), and nothing keeps two files of the array from bearing the
    same id (line 36 draws it at random).  What the run makes of one file
    is settled here from what is known of the files that bear its id. *)

Section OwnId.

Context (env : Browser) (settings : ConversionSettings) (t : Translations)
  (files : list ProcessedFile) (settled : list (nat * ProcessedFile)).

Hypothesis settled_in_order : settlingOrder files settled.

Implicit Types (f g : ProcessedFile) (task : nat * ProcessedFile)
  (ts : list (nat * ProcessedFile)).

(** A task is made from a file of the array that is not completed. *)
Lemma task_is_pending_file task :
  task ∈ tasks (applyUpdate ResetErrors files) →
  ∃ g, files !! task.1 = Some g
       ∧ task.2 = resetError g
       ∧ status g ≠ COMPLETED.
Proof.
  intros [Hj Hst]%tasks_elem. rewrite lookup_resetErrors in Hj.
  destruct (files !! task.1) as [g|] eqn:Hg; [|done].
  injection Hj as Hj. exists g. split; [done|]. split; [done|].
  intros Hdone. apply Hst. by rewrite <- Hj, resetError_completed.
Qed.

(** The run is a sequence of maps over the array: the file at a place
    goes through every update of the run. *)
Lemma lookup_run i f :
  files !! i = Some f →
  startProcessing env settings t settled files !! i
  = Some (updatesOnFile
            (startProcessingUpdates env settings t settled files) f).
Proof.
  intros Hi. unfold startProcessing.
  rewrite applyUpdates_inPlace by apply startProcessingUpdates_inPlace.
  by rewrite list_lookup_fmap, Hi.
Qed.

Lemma sole_task i f task :
  files !! i = Some f →
  soleTaskOfItsId files i f →
  task ∈ tasks (applyUpdate ResetErrors files) →
  id task.2 = id f →
  task = (i, resetError f).
Proof.
  intros Hi Hsole Hin Heq.
  destruct (task_is_pending_file _ Hin) as (g & Hg & Hres & Hst).
  destruct task as [j g']. cbn [fst snd] in *. subst g'.
  rewrite id_resetError in Heq.
  assert (j = i) as -> by (by eapply Hsole).
  congruence.
Qed.

(** A file that is the only one of its id to be converted is marked, and
    then updated by its own conversion and by no other. *)
Lemma run_on_sole_task i f :
  files !! i = Some f →
  status f ≠ COMPLETED →
  soleTaskOfItsId files i f →
  updatesOnFile (startProcessingUpdates env settings t settled files) f
  = fileOutcome env settings t i f.
Proof.
  intros Hi Hst Hsole. unfold startProcessingUpdates, fileOutcome.
  rewrite updatesOnFile_cons, updatesOnFile_app, updatesOnFile_onStart.
  cbn [updateFile]. set (fileItem := resetError f).
  assert (status fileItem ≠ COMPLETED) as Hdone
    by (by apply status_resetError_not_completed).
  rewrite (bool_decide_eq_false_2 (status _ = _)) by done.
  pose proof settled_in_order as Hperm. unfold settlingOrder in Hperm.
  assert ((i, fileItem) ∈ tasks (applyUpdate ResetErrors files)) as Hin.
  { apply tasks_elem. split; [|done]. cbn [fst snd].
    by rewrite lookup_resetErrors, Hi. }
  rewrite bool_decide_eq_true_2
    by (apply list_elem_of_fmap; by exists (i, fileItem)).
  assert (NoDup settled) as Hnd by (rewrite Hperm; apply NoDup_tasks).
  assert ((i, fileItem) ∈ settled) as Hin' by (by rewrite Hperm).
  apply list_elem_of_split in Hin' as (l1 & l2 & Hsplit).
  rewrite Hsplit in Hnd, Hperm |- *.
  apply NoDup_app in Hnd as (_ & Hl1 & [Hl2 _]%NoDup_cons).
  assert (∀ ts g, ts ⊆ l1 ++ (i, fileItem) :: l2 →
                  (i, fileItem) ∉ ts →
                  id g = id f →
                  id g ∉ (λ task, id task.2) <$> ts) as Hother.
  { intros ts g Hts Hnotin Hg (task & Heq & Htask)%list_elem_of_fmap.
    apply Hnotin. replace (i, fileItem) with task; [done|].
    apply (sole_task i f task Hi Hsole); [|congruence].
    rewrite <- Hperm. by apply Hts. }
  rewrite fmap_app, fmap_cons, updatesOnFile_app.
  rewrite updatesOnFile_onSettled_other; cycle 1.
  { apply Hother.
    - set_solver.
    - intros Hin1. apply (Hl1 _ Hin1). left.
    - apply id_resetError. }
  rewrite updatesOnFile_cons.
  rewrite updatesOnFile_onSettled_other; cycle 1.
  { apply Hother.
    - set_solver.
    - done.
    - rewrite id_updateFile. apply id_resetError. }
  unfold onSettled. cbn [fst snd].
  destruct (convertImage _ _ _); cbn; by rewrite bool_decide_eq_true_2.
Qed.


(** What the run makes of a file that is the only one of its id to be
    converted. *)
Lemma lookup_run_sole_task i f :
  files !! i = Some f →
  status f ≠ COMPLETED →
  soleTaskOfItsId files i f →
  startProcessing env settings t settled files !! i
  = Some (fileOutcome env settings t i f).
Proof.
  intros Hi Hst Hsole.
  by rewrite (lookup_run _ _ Hi), (run_on_sole_task i f Hi Hst Hsole).
Qed.



End OwnId.

(** Files of distinct ids: each is the only one of its id. *)
Lemma distinct_ids_soleTaskOfItsId files i f :
  NoDup (id <$> files) → files !! i = Some f → soleTaskOfItsId files i f.
Proof.
  intros Hids Hi j g Hj Heq _. by apply (ids_unique files j i g f).
Qed.


Lemma settlingOrder_samples : settlingOrder Samples.files Samples.settled.
Proof. unfold settlingOrder. vm_compute. apply Permutation_swap. Qed.





(* ===================================================================== *)
(** * Rejections and the output invariant *)
(* ===================================================================== *)

Section BatchRun.

Implicit Types (f : ProcessedFile) (files fs : list ProcessedFile)
  (settings : ConversionSettings) (u : Update).

(** C7. [convertImage] rejects with the Error 'Failed to load image' when
    the image does not decode and with the Error 'Conversion failed' when
    the encoding gives no blob; a file whose conversion rejects, and that
    is the only file still to be converted that bears its id, ends the run
    in error, with an error message, and with the output blob and name it
    had before the run. *)
Theorem rejections_become_error_state env settings t settled files i f :
  (∀ file dataUrl,
     readAsDataURL env file = Some dataUrl →
     loadImage env dataUrl = None →
     convertImage env file settings
     = Rejected (ErrorObject (lit "Failed to load image")))
  ∧ (∀ file dataUrl img,
       readAsDataURL env file = Some dataUrl →
       loadImage env dataUrl = Some img →
       getContext2d env (canvasWidth (renderCanvas img settings))
         (canvasHeight (renderCanvas img settings)) = true →
       toBlob env (renderCanvas img settings) (format settings)
         (quality settings) = None →
       convertImage env file settings
       = Rejected (ErrorObject (lit "Conversion failed")))
  ∧ (∀ r,
       settlingOrder files settled →
       files !! i = Some f →
       status f ≠ COMPLETED →
       soleTaskOfItsId files i f →
       convertImage env (originalFile f) settings = Rejected r →
       ∃ f', startProcessing env settings t settled files !! i = Some f'
             ∧ status f' = ERROR
             ∧ error f' = Some (errorMessage t r)
             ∧ outputBlob f' = outputBlob f
             ∧ newName f' = newName f).
Proof.
  split; [|split].
  - intros file dataUrl Hread Hload. unfold convertImage.
    by rewrite Hread, Hload.
  - intros file dataUrl img Hread Hload Hctx Hblob. unfold convertImage.
    by rewrite Hread, Hload, Hctx, Hblob.
  - intros r Hperm Hi Hst Hsole Hconv.
    rewrite (lookup_run_sole_task env settings t files settled Hperm
               i f Hi Hst Hsole).
    eexists. split; [reflexivity|]. unfold fileOutcome.
    rewrite bool_decide_eq_false_2
      by (by apply status_resetError_not_completed).
    rewrite originalFile_resetError, Hconv.
    destruct (outputs_resetError f) as [Hblob Hname]. done.
Qed.

Lemma rejections_become_error_state_witness :
  convertImage Samples.browser (originalFile Samples.failed) Samples.numbered
  = Rejected (ErrorObject (lit "Failed to load image"))
  ∧ ∃ f', startProcessing Samples.browser Samples.numbered Samples.t
            Samples.settled Samples.files !! 1 = Some f'
          ∧ status f' = ERROR
          ∧ error f' = Some (lit "Failed to load image")
          ∧ outputBlob f' = None.
Proof.
  destruct (rejections_become_error_state Samples.browser Samples.numbered
              Samples.t Samples.settled Samples.files 1 Samples.failed)
    as (Hload & _ & Hrun).
  split.
  - apply (Hload _ (lit "data:broken.png")); reflexivity.
  - destruct (Hrun (ErrorObject (lit "Failed to load image")))
      as (f' & Hf' & Hst & Herr & Hblob & _).
    + exact settlingOrder_samples.
    + reflexivity.
    + discriminate.
    + apply distinct_ids_soleTaskOfItsId; [decide_by_computation|reflexivity].
    + reflexivity.
    + exists f'. by rewrite Hblob.
Defined.

(** C7, refuted as stated.  Of two files that share an id, the conversion
    of the first rejects and the conversion of the second, which settles
    later, succeeds: the first file ends the run completed, with the blob
    and the name of the second. *)
Lemma rejected_file_claim_fails :
  settlingOrder [Samples.twinBroken; Samples.twinA]
    [(0, Samples.twinBroken); (1, Samples.twinA)]
  ∧ convertImage Samples.browser (originalFile Samples.twinBroken)
      initialSettings
    = Rejected (ErrorObject (lit "Failed to load image"))
  ∧ outputBlob Samples.twinBroken = None
  ∧ newName Samples.twinBroken = None
  ∧ ∃ f', startProcessing Samples.browser initialSettings Samples.t
            [(0, Samples.twinBroken); (1, Samples.twinA)]
            [Samples.twinBroken; Samples.twinA] !! 0 = Some f'
          ∧ name (originalFile f') = lit "broken.png"
          ∧ status f' = COMPLETED
          ∧ outputBlob f' = Some [Byte.x89; Byte.x50]
          ∧ newName f' = Some (lit "a").
Proof.
  split; [unfold settlingOrder; vm_compute; reflexivity|].
  do 3 (split; [vm_compute; reflexivity|]).
  eexists. split; [vm_compute; reflexivity|]. repeat split.
Qed.

(** The message of a rejection that is not an Error (a failed read) is
    the translated one. *)
Example read_failure_message :
  errorMessage Samples.t NotAnError = lit "Failed".
Proof. reflexivity. Qed.

(** What an update does to the outputs of one file. *)
Lemma updateFile_outputs u f :
  (outputBlob (updateFile u f) = outputBlob f
   ∧ newName (updateFile u f) = newName f
   ∧ (status (updateFile u f) = COMPLETED → status f = COMPLETED))
  ∨ (∃ blob baseName,
       u = MarkCompleted (id f) blob baseName
       ∧ status (updateFile u f) = COMPLETED
       ∧ outputBlob (updateFile u f) = Some blob
       ∧ newName (updateFile u f) = Some baseName).
Proof.
  destruct u; cbn; try (left; done);
    try (case_bool_decide; [|left; done]).
  - left. unfold resetError. by case_bool_decide.
  - left. done.
  - right. subst. by eexists _, _.
  - left. done.
Qed.

(** C6. An update of the state sets the output blob and the output name of
    a file in one case only, the completion update on the file it targets,
    which sets both at once together with the status COMPLETED.  Under any
    other update a file keeps both as they were and does not become
    completed; the files an update adds have neither, and the remaining
    updates only drop files. *)
Theorem blob_and_name_set_on_completion_only u :
  (∀ f,
     let f' := updateFile u f in
     (outputBlob f' = outputBlob f ∧ newName f' = newName f
      ∧ (status f' = COMPLETED → status f = COMPLETED))
     ∨ (∃ blob baseName,
          u = MarkCompleted (id f) blob baseName
          ∧ status f' = COMPLETED
          ∧ outputBlob f' = Some blob
          ∧ newName f' = Some baseName))
  ∧ (∀ fs,
       applyUpdate u fs = updateFile u <$> fs
       ∨ (∃ created,
            applyUpdate u fs = fs ++ created
            ∧ Forall (λ f, outputBlob f = None ∧ newName f = None
                           ∧ status f = IDLE) created)
       ∨ sublist (applyUpdate u fs) fs).
Proof.
  split.
  - intros f. apply updateFile_outputs.
  - intros fs. destruct u; cbn; try (left; done).
    + right. left. eexists. split; [done|].
      apply Forall_fmap, Forall_true. by intros [[newId file] url].
    + right. right. apply sublist_filter.
    + right. right. apply sublist_nil_l.
Qed.

(** The ids must identify the files: an update aimed at one id reaches
    every file that bears it.  Here a completed file shares the id of a
    waiting one and is overwritten by its conversion. *)
Example shared_id_is_updated_together :
  let twin := withCompleted [Byte.xff] (lit "old") (Samples.idle "f1" "b.png") in
  newName <$> startProcessing Samples.browser initialSettings Samples.t
                [(0, Samples.waiting)] [Samples.waiting; twin] !! 1
  = Some (Some (lit "holiday.photo")).
Proof. vm_compute. reflexivity. Qed.

(** Consequence: every update keeps the files that have an output blob
    exactly when they have an output name that way. *)
Lemma blobIffName_updateFile u f : blobIffName f → blobIffName (updateFile u f).
Proof.
  unfold blobIffName. intros Hf.
  destruct (updateFile_outputs u f)
    as [(-> & -> & _)|(blob & baseName & _ & _ & -> & ->)]; [done|].
  split; by eexists.
Qed.

Lemma blobIffName_applyUpdate u fs :
  Forall blobIffName fs → Forall blobIffName (applyUpdate u fs).
Proof.
  intros Hfs.
  assert (Forall blobIffName (updateFile u <$> fs)) as Hmap.
  { apply Forall_fmap. eapply Forall_impl; [exact Hfs|].
    intros f. apply blobIffName_updateFile. }
  destruct u; cbn [applyUpdate]; try exact Hmap.
  - apply Forall_app. split; [done|].
    apply Forall_fmap, Forall_true. intros [[newId file] url].
    unfold compose, blobIffName. cbn. split; intros [? [=]].
  - rewrite Forall_forall in Hfs. apply Forall_forall.
    intros f [_ Hin]%list_elem_of_filter. by apply Hfs.
  - constructor.
Qed.

Lemma blobIffName_startProcessing env settings t settled files :
  Forall blobIffName files →
  Forall blobIffName (startProcessing env settings t settled files).
Proof.
  unfold startProcessing, applyUpdates.
  generalize (startProcessingUpdates env settings t settled files).
  intros us. revert files.
  induction us as [|u us IH]; intros files Hfiles; [done|].
  cbn. by apply IH, blobIffName_applyUpdate.
Qed.

End BatchRun.

(* ===================================================================== *)
(** * Downloads *)
(* ===================================================================== *)

Section Downloads.

Implicit Types (f : ProcessedFile) (files targetFiles : list ProcessedFile)
  (settings : ConversionSettings) (mode : DownloadMode).

Lemma downloaded_app (es1 es2 : list Effect) :
  downloaded (es1 ++ es2) = downloaded es1 ++ downloaded es2.
Proof. unfold downloaded. by rewrite fmap_app, join_app. Qed.

Lemma downloaded_raw settings (l : list ProcessedFile) :
  downloaded (mjoin (rawDownload settings <$> l))
  = omap (downloadEntry settings) l.
Proof.
  induction l as [|f l IH]; [done|].
  change (downloaded (rawDownload settings f
                      ++ mjoin (rawDownload settings <$> l))
          = omap (downloadEntry settings) (f :: l)).
  rewrite downloaded_app, IH. cbn [omap list_omap]. unfold rawDownload.
  by destruct (downloadEntry settings f) as [[fileName blob]|].
Qed.

Lemma downloadEntry_Some settings f fileName blob :
  downloadEntry settings f = Some (fileName, blob) ↔
  outputBlob f = Some blob ∧ fileName = downloadFileName settings f.
Proof.
  unfold downloadEntry. destruct (outputBlob f) as [b|].
  - split; [intros [= <- <-]|intros [[= <-] ->]]; done.
  - split; [intros [=]|intros [[=] _]].
Qed.

(** C9. A bulk download, as an archive or as raw files, of all files or of
    the selected ones, works on the target files that are completed and
    have an output blob: when there is none it does nothing at all, and
    what it saves or archives is exactly the blob of each such file under
    its download name, so that no file in another state is ever included. *)
Theorem bulk_downloads_take_ready_files_only settings now files selectedIds mode :
  (∀ targetFiles,
     filter isReady targetFiles = [] →
     handleDownloadFiles settings now targetFiles mode = [])
  ∧ (∀ targetFiles,
       downloaded (handleDownloadFiles settings now targetFiles mode)
       = omap (downloadEntry settings) (filter isReady targetFiles))
  ∧ (∀ targetFiles fileName blob,
       (fileName, blob)
         ∈ downloaded (handleDownloadFiles settings now targetFiles mode) →
       ∃ f, f ∈ targetFiles ∧ status f = COMPLETED
            ∧ outputBlob f = Some blob
            ∧ fileName = downloadFileName settings f)
  ∧ onDownloadAll settings now files mode
    = handleDownloadFiles settings now files mode
  ∧ onDownloadSelected settings now files selectedIds mode
    = handleDownloadFiles settings now
        (filter (λ f, id f ∈ selectedIds) files) mode.
Proof.
  assert (∀ targetFiles,
            downloaded (handleDownloadFiles settings now targetFiles mode)
            = omap (downloadEntry settings) (filter isReady targetFiles))
    as Hexact.
  { intros targetFiles. unfold handleDownloadFiles.
    destruct (filter isReady targetFiles) as [|f ready] eqn:Hready; [done|].
    cbn [length Nat.eqb]. destruct mode.
    - unfold downloaded. cbn [fmap list_fmap mjoin list_join].
      by rewrite app_nil_r.
    - apply downloaded_raw. }
  split; [|split; [exact Hexact|split; [|done]]].
  - intros targetFiles Hnone. unfold handleDownloadFiles. by rewrite Hnone.
  - intros targetFiles fileName blob. rewrite Hexact, list_elem_of_omap.
    intros (f & [Hready Hin]%list_elem_of_filter & Hentry).
    apply downloadEntry_Some in Hentry as [Hblob ->].
    exists f. by destruct Hready.
Qed.

Lemma bulk_downloads_take_ready_files_only_witness :
  onDownloadAll Samples.numbered 1700000000000 [Samples.waiting; Samples.failed] Zip
  = []
  ∧ downloaded (onDownloadAll Samples.numbered 1700000000000 Samples.files Raw)
    = [(lit "README_3.webp", [Byte.xff])].
Proof.
  destruct (bulk_downloads_take_ready_files_only Samples.numbered
              1700000000000 [Samples.waiting; Samples.failed] ∅ Zip)
    as (Hnone & _ & _ & -> & _).
  destruct (bulk_downloads_take_ready_files_only Samples.numbered
              1700000000000 Samples.files ∅ Raw)
    as (_ & Hexact & _ & -> & _).
  split.
  - apply Hnone. reflexivity.
  - rewrite Hexact. reflexivity.
Defined.

Example zip_of_selected :
  onDownloadSelected Samples.numbered 42 Samples.files
    {[ lit "f1"; lit "f3" ]} Zip
  = [SaveZip [(lit "README_3.webp", [Byte.xff])]
       (lit "pixmorph_converted_42.zip")].
Proof. vm_compute. reflexivity. Qed.

End Downloads.


(* ===================================================================== *)
(** * Further properties of a run and of the derived values *)
(* ===================================================================== *)

Section RunShape.

Implicit Types (f : ProcessedFile) (u : Update) (us : list Update).

Lemma updateFile_keeps_source u f :
  originalFile (updateFile u f) = originalFile f
  ∧ previewUrl (updateFile u f) = previewUrl f.
Proof.
  destruct u; cbn; try done; try (by case_bool_decide).
  unfold resetError. by case_bool_decide.
Qed.

Lemma updatesOnFile_keeps_source us f :
  originalFile (updatesOnFile us f) = originalFile f
  ∧ previewUrl (updatesOnFile us f) = previewUrl f.
Proof.
  revert f. induction us as [|u us IH]; intros f; [done|].
  rewrite updatesOnFile_cons.
  destruct (IH (updateFile u f)) as [-> ->]. apply updateFile_keeps_source.
Qed.

(** X1. Whatever the order in which the conversions settle, a run neither
    adds, drops nor moves a file, and it never changes the id, the original
    file or the preview URL of any of them. *)
Theorem run_keeps_the_files env settings t settled files :
  (λ f, (id f, originalFile f, previewUrl f))
    <$> startProcessing env settings t settled files
  = (λ f, (id f, originalFile f, previewUrl f)) <$> files.
Proof.
  unfold startProcessing.
  rewrite applyUpdates_inPlace by apply startProcessingUpdates_inPlace.
  rewrite <- list_fmap_compose. apply list_fmap_ext. intros i f _.
  unfold compose. rewrite id_updatesOnFile.
  by destruct (updatesOnFile_keeps_source
                 (startProcessingUpdates env settings t settled files) f)
    as [-> ->].
Qed.

Lemma filter_all_length {A} (P : A → Prop) `{!∀ x, Decision (P x)}
    (l : list A) :
  length (filter P l) = length l ↔ Forall P l.
Proof.
  induction l as [|x l IH]; [by split|].
  destruct (decide (P x)) as [Hx|Hx].
  - rewrite filter_cons_True by done. cbn. rewrite Forall_cons.
    split; [intros [= Hlen]; by rewrite <- IH|intros [_ Hl]; f_equal; by apply IH].
  - rewrite filter_cons_False by done. cbn. rewrite Forall_cons.
    pose proof (length_filter P l). split; [lia|by intros [? _]].
Qed.

Lemma filter_all_id {A} (P : A → Prop) `{!∀ x, Decision (P x)}
    (l : list A) :
  Forall P l → filter P l = l.
Proof.
  induction 1 as [|x l Hx _ IH]; [done|].
  by rewrite filter_cons_True, IH.
Qed.

Lemma filter_none_nil {A} (P : A → Prop) `{!∀ x, Decision (P x)}
    (l : list A) :
  filter P l = [] ↔ Forall (λ x, ¬ P x) l.
Proof.
  induction l as [|x l IH]; [by split|].
  destruct (decide (P x)) as [Hx|Hx].
  - rewrite filter_cons_True by done. rewrite Forall_cons. split; [done|].
    by intros [? _].
  - rewrite filter_cons_False by done. rewrite Forall_cons, IH. tauto.
Qed.

Lemma allCompleted_iff files :
  allCompleted files = true
  ↔ files ≠ [] ∧ Forall (λ f, status f = COMPLETED) files.
Proof.
  unfold allCompleted, hasFiles, completedCount.
  rewrite !andb_true_iff, !bool_decide_eq_true, filter_all_length. split.
  - intros [[Hlen _] Hall]. split; [|done]. intros ->. cbn in Hlen. lia.
  - intros [Hne Hall]. split; [|done].
    pose proof (proj2 (filter_all_length _ files) Hall) as Hlen.
    rewrite Hlen. destruct files; [done|]. cbn. split; lia.
Qed.

Lemma startDisabled_iff files :
  startDisabled files = true ↔ Forall (λ f, status f ≠ IDLE) files.
Proof.
  unfold startDisabled.
  by rewrite bool_decide_eq_true, length_zero_iff_nil, filter_none_nil.
Qed.

(** X2. Once every file of a non-empty array is completed, starting a run
    changes nothing at all: no task is made and the array is left as it
    is. *)
Theorem run_over_completed_array_is_idle env settings t settled files :
  allCompleted files = true →
  settlingOrder files settled →
  settled = []
  ∧ startProcessing env settings t settled files = files.
Proof.
  intros [_ Hall]%allCompleted_iff Hperm.
  assert (applyUpdate ResetErrors files = files) as Hreset.
  { cbn. rewrite <- (list_fmap_id files) at 2. apply Forall_fmap_ext_1.
    eapply Forall_impl; [exact Hall|]. intros f. apply resetError_completed. }
  assert (tasks files = []) as Htasks.
  { unfold tasks. apply filter_none_nil, Forall_forall.
    intros [i f] (j & g & [= -> ->] & Hj)%elem_of_lookup_imap_1 Hst.
    rewrite Forall_forall in Hall. apply Hst, Hall.
    by eapply list_elem_of_lookup_2. }
  unfold settlingOrder in Hperm. rewrite Hreset, Htasks in Hperm.
  apply Permutation_nil_r in Hperm as ->. split; [done|].
  unfold startProcessing, startProcessingUpdates.
  rewrite Hreset, Htasks. cbn [fmap list_fmap app applyUpdates foldl].
  exact Hreset.
Qed.

Lemma run_over_completed_array_is_idle_witness :
  startProcessing Samples.browser Samples.numbered Samples.t []
    [Samples.converted]
  = [Samples.converted].
Proof.
  apply (run_over_completed_array_is_idle Samples.browser Samples.numbered
           Samples.t [] [Samples.converted]).
  - reflexivity.
  - unfold settlingOrder. vm_compute. constructor.
Defined.

End RunShape.

Section RunOutcome.

Context (env : Browser) (settings : ConversionSettings) (t : Translations)
  (files : list ProcessedFile) (settled : list (nat * ProcessedFile)).

Hypothesis ids_distinct : NoDup (id <$> files).
Hypothesis settled_in_order : settlingOrder files settled.

Implicit Types (f : ProcessedFile).

Lemma status_fileOutcome i f :
  status (fileOutcome env settings t i f)
  = if bool_decide (status f = COMPLETED) then COMPLETED
    else match convertImage env (originalFile f) settings with
         | Resolved _ => COMPLETED
         | Rejected _ => ERROR
         end.
Proof.
  unfold fileOutcome. rewrite originalFile_resetError.
  destruct (decide (status f = COMPLETED)) as [Hst|Hst].
  - rewrite (resetError_completed _ Hst), !bool_decide_eq_true_2; done.
  - rewrite !bool_decide_eq_false_2;
      [|done|by apply status_resetError_not_completed].
    by destruct (convertImage _ _ _).
Qed.

(** X3. When a run is over no file is left idle or processing: a file is
    completed if it was completed before or its conversion resolved, and in
    error otherwise. *)
Theorem run_leaves_completed_or_error i f :
  files !! i = Some f →
  ∃ f', startProcessing env settings t settled files !! i = Some f'
        ∧ (status f' = COMPLETED ∨ status f' = ERROR)
        ∧ (status f' = COMPLETED
           ↔ status f = COMPLETED
             ∨ ∃ blob, convertImage env (originalFile f) settings
                       = Resolved blob).
Proof.
  intros Hi. eexists. split.
  { by apply (lookup_startProcessing env settings t files settled). }
  rewrite status_fileOutcome. case_bool_decide as Hst.
  - split; [by left|]. split; [by left|done].
  - destruct (convertImage _ _ _) as [blob|r].
    + split; [by left|]. split; [|done]. intros _. right. by exists blob.
    + split; [by right|]. split; [done|]. by intros [?|[? [=]]].
Qed.

(** X4. After a run the start button is disabled: no file is idle, the
    files in error included, which are reset to idle only inside a run. *)
Theorem start_button_disabled_after_run :
  startDisabled (startProcessing env settings t settled files) = true.
Proof.
  rewrite (startProcessing_outcome env settings t files settled) by done.
  apply startDisabled_iff, Forall_forall.
  intros f' (i & f & -> & _)%elem_of_lookup_imap_1.
  rewrite status_fileOutcome. case_bool_decide; [done|].
  by destruct (convertImage _ _ _).
Qed.

(** X5. When the conversion of every file that is not completed yet
    resolves, a run over a non-empty array ends with all files completed,
    which is when the download buttons replace the start button. *)
Theorem run_of_successes_completes_all :
  files ≠ [] →
  (∀ f, f ∈ files → status f ≠ COMPLETED →
        ∃ blob, convertImage env (originalFile f) settings = Resolved blob) →
  allCompleted (startProcessing env settings t settled files) = true.
Proof.
  intros Hne Hok.
  rewrite (startProcessing_outcome env settings t files settled) by done.
  apply allCompleted_iff. split.
  { destruct files; [done|]. done. }
  apply Forall_forall.
  intros f' (i & f & -> & Hi)%elem_of_lookup_imap_1.
  rewrite status_fileOutcome. case_bool_decide as Hst; [done|].
  destruct (Hok f) as [blob ->]; [by eapply list_elem_of_lookup_2|done..].
Qed.

(** X6. The state a run leaves does not depend on the order in which the
    conversions settle. *)
Theorem run_does_not_depend_on_settling_order settled' :
  settlingOrder files settled' →
  startProcessing env settings t settled files
  = startProcessing env settings t settled' files.
Proof.
  intros Hperm'.
  rewrite (startProcessing_outcome env settings t files settled) by done.
  by rewrite (startProcessing_outcome env settings t files settled').
Qed.

(** X7. Before any conversion has settled, every file that is not
    completed shows as processing (a file in error after its reset to
    idle), and the completed files are as they were. *)
Theorem pending_files_show_processing :
  startProcessing env settings t [] files
  = (λ f, if bool_decide (status f = COMPLETED) then f
          else withStatus PROCESSING (resetError f)) <$> files.
Proof.
  unfold startProcessing.
  rewrite applyUpdates_inPlace by apply startProcessingUpdates_inPlace.
  apply list_eq. intros i. rewrite !list_lookup_fmap.
  destruct (files !! i) as [f|] eqn:Hi; [|done].
  cbn -[updatesOnFile startProcessingUpdates]. f_equal.
  unfold startProcessingUpdates.
  rewrite updatesOnFile_cons, fmap_nil, app_nil_r, updatesOnFile_onStart.
  cbn [updateFile].
  assert (applyUpdate ResetErrors files !! i = Some (resetError f)) as Hi'
    by (by rewrite lookup_resetErrors, Hi).
  destruct (decide (status f = COMPLETED)) as [Hst|Hst].
  - rewrite (bool_decide_eq_true_2 (status f = _)) by done.
    rewrite bool_decide_eq_false_2; [by apply resetError_completed|].
    apply (completed_file_untargeted files ids_distinct i); [done| |done].
    by rewrite resetError_completed.
  - rewrite (bool_decide_eq_false_2 (status f = _)) by done.
    rewrite bool_decide_eq_true_2; [done|].
    apply list_elem_of_fmap. exists (i, resetError f). split; [done|].
    apply tasks_elem. split; [done|]. by apply status_resetError_not_completed.
Qed.

End RunOutcome.

Lemma run_leaves_completed_or_error_witness :
  ∃ f', startProcessing Samples.browser Samples.numbered Samples.t
          Samples.settled Samples.files !! 1 = Some f'
        ∧ (status f' = COMPLETED ∨ status f' = ERROR).
Proof.
  destruct (run_leaves_completed_or_error Samples.browser Samples.numbered
              Samples.t Samples.files Samples.settled
              ltac:(decide_by_computation)
              ltac:(unfold settlingOrder; vm_compute; apply Permutation_swap)
              1 Samples.failed eq_refl) as (f' & Hf' & Hst & _).
  by exists f'.
Defined.

Lemma start_button_disabled_after_run_witness :
  startDisabled (startProcessing Samples.browser Samples.numbered Samples.t
                   Samples.settled Samples.files) = true.
Proof.
  apply (start_button_disabled_after_run Samples.browser Samples.numbered
           Samples.t Samples.files Samples.settled).
  - decide_by_computation.
  - unfold settlingOrder. vm_compute. apply Permutation_swap.
Defined.

Lemma run_of_successes_completes_all_witness :
  allCompleted (startProcessing Samples.browser Samples.numbered Samples.t
                  [(0, Samples.waiting)] [Samples.waiting; Samples.converted])
  = true.
Proof.
  apply (run_of_successes_completes_all Samples.browser Samples.numbered
           Samples.t [Samples.waiting; Samples.converted]
           [(0, Samples.waiting)]).
  - decide_by_computation.
  - unfold settlingOrder. vm_compute. reflexivity.
  - discriminate.
  - intros f [->|[->|[]%elem_of_nil]%elem_of_cons]%elem_of_cons Hst.
    + eexists. vm_compute. reflexivity.
    + by destruct Hst.
Defined.

Lemma run_does_not_depend_on_settling_order_witness :
  startProcessing Samples.browser Samples.numbered Samples.t
    Samples.settled Samples.files
  = startProcessing Samples.browser Samples.numbered Samples.t
      (reverse Samples.settled) Samples.files.
Proof.
  apply (run_does_not_depend_on_settling_order Samples.browser
           Samples.numbered Samples.t Samples.files Samples.settled).
  - decide_by_computation.
  - unfold settlingOrder. vm_compute. apply Permutation_swap.
  - unfold settlingOrder. vm_compute. reflexivity.
Defined.

Lemma pending_files_show_processing_witness :
  status <$> startProcessing Samples.browser Samples.numbered Samples.t []
               Samples.files
  = [PROCESSING; PROCESSING; COMPLETED].
Proof.
  rewrite (pending_files_show_processing Samples.browser Samples.numbered
             Samples.t Samples.files).
  - reflexivity.
  - decide_by_computation.
Defined.

(* ===================================================================== *)
(** * Further properties of the state updates *)
(* ===================================================================== *)

Section States.

Implicit Types (f : ProcessedFile) (u : Update) (us : list Update)
  (fs files : list ProcessedFile).

Lemma completedHasOutputs_updateFile u f :
  completedHasOutputs f → completedHasOutputs (updateFile u f).
Proof.
  unfold completedHasOutputs. intros Hf.
  destruct (updateFile_outputs u f)
    as [(-> & -> & Hst)|(blob & baseName & _ & _ & -> & ->)].
  - intros Hdone. by apply Hf, Hst.
  - intros _. split; by eexists.
Qed.

Lemma completedHasOutputs_applyUpdate u fs :
  Forall completedHasOutputs fs → Forall completedHasOutputs (applyUpdate u fs).
Proof.
  intros Hfs.
  assert (Forall completedHasOutputs (updateFile u <$> fs)) as Hmap.
  { apply Forall_fmap. eapply Forall_impl; [exact Hfs|].
    intros f. apply completedHasOutputs_updateFile. }
  destruct u; cbn [applyUpdate]; try exact Hmap.
  - apply Forall_app. split; [done|].
    apply Forall_fmap, Forall_true. by intros [[newId file] url].
  - rewrite Forall_forall in Hfs. apply Forall_forall.
    intros f [_ Hin]%list_elem_of_filter. by apply Hfs.
  - constructor.
Qed.

(** X8. In every state the component can reach from the empty array, a
    completed file has an output blob and an output name, and any file has
    the one exactly when it has the other: the files a bulk download takes
    are the completed ones, and none is ever saved under the name
    'undefined'. *)
Theorem reachable_completed_files_have_outputs us f :
  f ∈ applyUpdates us [] →
  (is_Some (outputBlob f) ↔ is_Some (newName f))
  ∧ (isReady f ↔ status f = COMPLETED)
  ∧ (isReady f → ∃ baseName, newName f = Some baseName
                             ∧ newNameText f = baseName).
Proof.
  assert (∀ fs, Forall blobIffName fs → Forall completedHasOutputs fs →
                Forall blobIffName (applyUpdates us fs)
                ∧ Forall completedHasOutputs (applyUpdates us fs)) as Hinv.
  { induction us as [|u us IH]; intros fs H1 H2; [done|].
    cbn. apply IH;
      [by apply blobIffName_applyUpdate|by apply completedHasOutputs_applyUpdate]. }
  destruct (Hinv [] ltac:(constructor) ltac:(constructor)) as [Hiff Hdone].
  rewrite Forall_forall in Hiff, Hdone. intros Hf.
  specialize (Hiff f Hf). specialize (Hdone f Hf).
  split; [exact Hiff|]. unfold isReady.
  split; [split; [by intros [? _]|intros Hst; split; [done|by apply Hdone]]|].
  intros [Hst _]. destruct (Hdone Hst) as [_ [baseName Hname]].
  exists baseName. unfold newNameText. by rewrite Hname.
Qed.

Lemma reachable_completed_files_have_outputs_witness :
  isReady Samples.converted
  ↔ status Samples.converted = COMPLETED.
Proof.
  apply (reachable_completed_files_have_outputs
           [AddFiles [(lit "f3", mkFile (lit "README") [], lit "blob:preview")];
            MarkCompleted (lit "f3") [Byte.xff] (lit "README_3")]
           Samples.converted).
  vm_compute. left.
Defined.

(** X9. The reset button puts every file back to idle and keeps the
    outputs: each file is still downloaded on its own as before, a bulk
    download now does nothing, and the next run converts every file
    again. *)
Theorem reset_all_keeps_outputs settings now files mode :
  Forall (λ f, status f = IDLE) (applyUpdate ResetAll files)
  ∧ handleDownloadSingle settings <$> applyUpdate ResetAll files
    = handleDownloadSingle settings <$> files
  ∧ handleDownloadFiles settings now (applyUpdate ResetAll files) mode = []
  ∧ tasks (applyUpdate ResetErrors (applyUpdate ResetAll files))
    = imap pair (applyUpdate ResetAll files).
Proof.
  assert (Forall (λ f, status f = IDLE) (applyUpdate ResetAll files)) as Hidle.
  { cbn. apply Forall_fmap, Forall_true. done. }
  split; [exact Hidle|]. split; [|split].
  - cbn. rewrite <- list_fmap_compose. by apply list_fmap_ext.
  - unfold handleDownloadFiles.
    assert (filter isReady (applyUpdate ResetAll files) = []) as ->; [|done].
    apply filter_none_nil. eapply Forall_impl; [exact Hidle|].
    intros f Hst [Hdone _]. congruence.
  - assert (applyUpdate ResetErrors (applyUpdate ResetAll files)
            = applyUpdate ResetAll files) as ->.
    { cbn [applyUpdate]. rewrite <- (list_fmap_id (_ <$> files)) at 2.
      apply Forall_fmap_ext_1. eapply Forall_impl; [exact Hidle|].
      intros f Hst. cbn. unfold resetError.
      rewrite bool_decide_eq_false_2; [done|congruence]. }
    unfold tasks. apply filter_all_id, Forall_forall.
    intros [i f] (j & g & [= -> ->] & Hj)%elem_of_lookup_imap_1. cbn.
    rewrite Forall_forall in Hidle.
    rewrite (Hidle g); [done|]. by eapply list_elem_of_lookup_2.
Qed.

(** X10. Adding files appends them, idle and without outputs, behind the
    files already listed, which are left as they are; with at least one
    file added the start button is enabled and the array is not all
    completed. *)
Theorem added_files_wait_at_the_end entries files :
  handleFilesSelected entries files
  = files ++ (newProcessedFile <$> entries)
  ∧ Forall (λ f, status f = IDLE ∧ outputBlob f = None ∧ newName f = None
                 ∧ error f = None)
      (newProcessedFile <$> entries)
  ∧ (entries ≠ [] →
     startDisabled (handleFilesSelected entries files) = false
     ∧ allCompleted (handleFilesSelected entries files) = false).
Proof.
  split; [done|]. split.
  { apply Forall_fmap, Forall_true. by intros [[newId file] url]. }
  intros Hne. destruct entries as [|[[newId file] url] entries]; [done|].
  unfold handleFilesSelected. cbn [applyUpdate fmap list_fmap].
  set (new := newProcessedFile (newId, file, url)).
  assert (new ∈ files ++ new :: (newProcessedFile <$> entries)) as Hin
    by (apply elem_of_app; right; left).
  split.
  - apply not_true_iff_false. rewrite startDisabled_iff, Forall_forall.
    intros Hall. by apply (Hall new Hin).
  - apply not_true_iff_false. rewrite allCompleted_iff, Forall_forall.
    intros [_ Hall]. by specialize (Hall new Hin).
Qed.

Lemma added_files_wait_at_the_end_witness :
  startDisabled
    (handleFilesSelected
       [(lit "f9", mkFile (lit "new.png") [], lit "blob:9")]
       [Samples.converted])
  = false.
Proof.
  destruct (added_files_wait_at_the_end
              [(lit "f9", mkFile (lit "new.png") [], lit "blob:9")]
              [Samples.converted]) as (_ & _ & Hstart).
  by destruct (Hstart ltac:(discriminate)) as [-> _].
Defined.

(** What a bulk download hands over, in both modes. *)
Lemma downloaded_handleDownloadFiles settings now files mode :
  downloaded (handleDownloadFiles settings now files mode)
  = omap (downloadEntry settings) (filter isReady files).
Proof.
  unfold handleDownloadFiles.
  destruct (filter isReady files) as [|f ready] eqn:Hready; [done|].
  cbn [length Nat.eqb]. destruct mode.
  - unfold downloaded. cbn [fmap list_fmap mjoin list_join].
    by rewrite app_nil_r.
  - apply downloaded_raw.
Qed.

End States.

(* ===================================================================== *)
(** * Intake, removal and selection *)
(* ===================================================================== *)

Section Selection.

Implicit Types (f : ProcessedFile) (files : list ProcessedFile)
  (sel : gset jsstring) (target x : jsstring).

(** X11. Removing the file that was just added, under an id no listed file
    bears, gives back the array as it was and leaves the id unselected;
    removing an id that no file bears changes nothing in the array. *)
Theorem remove_undoes_add target file url files sel :
  target ∉ id <$> files →
  handleRemoveFile target
    (handleFilesSelected [(target, file, url)] files, sel ∪ {[ target ]})
  = (files, sel ∖ {[ target ]})
  ∧ (handleRemoveFile target (files, sel)).1 = files.
Proof.
  intros Hfresh.
  assert (filter (λ f, id f ≠ target) files = files) as Hkeep.
  { apply filter_all_id, Forall_forall. intros f Hf Hid.
    apply Hfresh. rewrite <- Hid. by apply list_elem_of_fmap_2. }
  split; [|exact Hkeep].
  unfold handleRemoveFile, handleFilesSelected. cbn [fst snd applyUpdate].
  rewrite filter_app, Hkeep. cbn [fmap list_fmap newProcessedFile].
  rewrite filter_cons_False by (cbn; by intros []).
  rewrite filter_nil, app_nil_r. f_equal. set_solver.
Qed.

Lemma remove_undoes_add_witness :
  (handleRemoveFile (lit "f9")
     (handleFilesSelected
        [(lit "f9", mkFile (lit "new.png") [], lit "blob:9")] Samples.files,
      {[ lit "f1" ]} ∪ {[ lit "f9" ]})).1
  = Samples.files.
Proof.
  destruct (remove_undoes_add (lit "f9") (mkFile (lit "new.png") [])
              (lit "blob:9") Samples.files {[ lit "f1" ]}) as [-> _].
  - decide_by_computation.
  - reflexivity.
Defined.

Lemma find_by_id_filter target files :
  NoDup (id <$> files) →
  filter (λ f, id f = target) files
  = match List.find (λ f, bool_decide (id f = target)) files with
    | Some removed => [removed]
    | None => []
    end.
Proof.
  induction files as [|f files IH]; [done|].
  rewrite fmap_cons. intros [Hf Hnd]%NoDup_cons. cbn [List.find].
  case_bool_decide as Hid.
  - rewrite filter_cons_True by done. f_equal.
    apply filter_none_nil, Forall_forall. intros g Hg Hgid.
    apply Hf. apply list_elem_of_fmap. exists g. split; [congruence|done].
  - rewrite filter_cons_False by done. by apply IH.
Qed.

(** X12. With distinct ids, removing a file revokes the preview URL of
    exactly the files the removal drops from the array, and every file of
    the array is either dropped or kept as it is. *)
Theorem remove_revokes_what_it_drops target files :
  NoDup (id <$> files) →
  revokedOnRemove target files
  = previewUrl <$> filter (λ f, id f = target) files
  ∧ ∀ f, f ∈ files →
         (id f = target ∧ previewUrl f ∈ revokedOnRemove target files)
         ∨ f ∈ applyUpdate (RemoveFile target) files.
Proof.
  intros Hnd.
  assert (revokedOnRemove target files
          = previewUrl <$> filter (λ f, id f = target) files) as Hrev.
  { rewrite (find_by_id_filter _ _ Hnd). unfold revokedOnRemove.
    by destruct (List.find _ files). }
  split; [exact Hrev|]. intros f Hf.
  destruct (decide (id f = target)) as [Hid|Hid].
  - left. split; [done|]. rewrite Hrev.
    apply list_elem_of_fmap_2. by apply list_elem_of_filter.
  - right. cbn. by apply list_elem_of_filter.
Qed.

Lemma remove_revokes_what_it_drops_witness :
  revokedOnRemove (lit "f2") Samples.files = [lit "blob:preview"].
Proof.
  destruct (remove_revokes_what_it_drops (lit "f2") Samples.files) as [-> _].
  - decide_by_computation.
  - reflexivity.
Defined.

(** X13. Toggling the selection of an id flips the membership of that id
    and of no other, and toggling it twice gives the selection back. *)
Theorem toggle_flips_one_id target sel :
  (∀ x, x ∈ handleToggleSelect target sel
        ↔ (x = target ∧ target ∉ sel) ∨ (x ≠ target ∧ x ∈ sel))
  ∧ handleToggleSelect target (handleToggleSelect target sel) = sel.
Proof.
  unfold handleToggleSelect. split.
  - intros x. case_bool_decide; destruct (decide (x = target)); set_solver.
  - destruct (decide (target ∈ sel)) as [Hin|Hin].
    + rewrite (bool_decide_eq_true_2 (target ∈ sel)) by done.
      rewrite (bool_decide_eq_false_2 (target ∈ sel ∖ {[target]}))
        by set_solver.
      apply set_eq. intros x. destruct (decide (x = target)); set_solver.
    + rewrite (bool_decide_eq_false_2 (target ∈ sel)) by done.
      rewrite (bool_decide_eq_true_2 (target ∈ sel ∪ {[target]}))
        by set_solver.
      set_solver.
Qed.

Lemma size_ids files :
  NoDup (id <$> files) →
  size (list_to_set (C := gset jsstring) (id <$> files)) = length files.
Proof. intros Hnd. by rewrite size_list_to_set, length_fmap. Qed.

(** X14. With distinct ids and a selection of listed files, the select-all
    button clears the selection when every file is selected and selects
    every file otherwise. *)
Theorem select_all_toggles files sel :
  NoDup (id <$> files) →
  selectionValid files sel →
  (sel = list_to_set (id <$> files) → handleSelectAll files sel = ∅)
  ∧ (sel ≠ list_to_set (id <$> files) →
     handleSelectAll files sel = list_to_set (id <$> files)).
Proof.
  intros Hnd Hvalid. unfold handleSelectAll. split.
  - intros ->. by rewrite bool_decide_eq_true_2 by (by apply size_ids).
  - intros Hne. rewrite bool_decide_eq_false_2; [done|]. intros Hsize.
    apply Hne, set_subseteq_size_eq.
    + intros x Hx. apply elem_of_list_to_set. by apply Hvalid.
    + rewrite size_ids by done. lia.
Qed.

Lemma select_all_toggles_witness :
  handleSelectAll Samples.files {[ lit "f1" ]}
  = {[ lit "f1"; lit "f2"; lit "f3" ]}
  ∧ handleSelectAll Samples.files {[ lit "f1"; lit "f2"; lit "f3" ]} = ∅.
Proof.
  destruct (select_all_toggles Samples.files {[ lit "f1" ]})
    as [_ Hpart]; [decide_by_computation| |].
  { intros x ->%elem_of_singleton. decide_by_computation. }
  destruct (select_all_toggles Samples.files
              {[ lit "f1"; lit "f2"; lit "f3" ]})
    as [Hall _]; [decide_by_computation| |].
  { intros x Hx. cbn. set_solver. }
  split.
  - rewrite Hpart; [set_solver|]. intros Heq.
    assert (lit "f2" ∈ ({[ lit "f1" ]} : gset jsstring)) as Hin
      by (rewrite Heq; cbn; set_solver).
    by apply elem_of_singleton in Hin.
  - apply Hall. cbn. set_solver.
Defined.

(** X15. The handlers keep the selection within the listed files: adding
    files, removing a file, clearing the array, the select-all button and
    the toggle of a listed file all give a selection of listed ids. *)
Theorem selection_stays_within_files files sel :
  selectionValid files sel →
  (∀ entries, selectionValid (handleFilesSelected entries files) sel)
  ∧ (∀ target, selectionValid (handleRemoveFile target (files, sel)).1
                 (handleRemoveFile target (files, sel)).2)
  ∧ selectionValid (handleClearAll (files, sel)).1
      (handleClearAll (files, sel)).2
  ∧ selectionValid files (handleSelectAll files sel)
  ∧ (∀ f, f ∈ files → selectionValid files (handleToggleSelect (id f) sel)).
Proof.
  intros Hvalid. unfold selectionValid in *. repeat split.
  - intros entries x Hx. unfold handleFilesSelected. cbn [applyUpdate].
    rewrite fmap_app. apply elem_of_app. left. by apply Hvalid.
  - intros target x. cbn.
    intros [Hx Hne%not_elem_of_singleton]%elem_of_difference.
    apply Hvalid in Hx as (f & -> & Hf)%list_elem_of_fmap.
    apply list_elem_of_fmap_2. by apply list_elem_of_filter.
  - intros x. cbn. set_solver.
  - intros x. unfold handleSelectAll. case_bool_decide; [set_solver|].
    by rewrite elem_of_list_to_set.
  - intros f Hf x. unfold handleToggleSelect. case_bool_decide.
    + intros [Hx _]%elem_of_difference. by apply Hvalid.
    + intros [Hx| ->%elem_of_singleton]%elem_of_union; [by apply Hvalid|].
      by apply list_elem_of_fmap_2.
Qed.

Lemma selection_stays_within_files_witness :
  selectionValid (handleRemoveFile (lit "f1") (Samples.files, {[ lit "f1" ]})).1
    (handleRemoveFile (lit "f1") (Samples.files, {[ lit "f1" ]})).2.
Proof.
  destruct (selection_stays_within_files Samples.files {[ lit "f1" ]})
    as (_ & Hremove & _).
  - intros x ->%elem_of_singleton. decide_by_computation.
  - apply Hremove.
Defined.

(** X16. A download of the selected files does nothing when nothing is
    selected, takes files of selected ids only, and is the download of all
    files once the select-all button was pressed on an empty selection. *)
Theorem download_selected_follows_selection settings now files mode :
  onDownloadSelected settings now files ∅ mode = []
  ∧ (∀ sel fileName blob,
       (fileName, blob)
         ∈ downloaded (onDownloadSelected settings now files sel mode) →
       ∃ f, f ∈ files ∧ id f ∈ sel ∧ outputBlob f = Some blob)
  ∧ onDownloadSelected settings now files (handleSelectAll files ∅) mode
    = onDownloadAll settings now files mode.
Proof.
  unfold onDownloadSelected, onDownloadAll. split; [|split].
  - rewrite (proj2 (filter_none_nil _ files)); [done|].
    apply Forall_true. intros f. apply not_elem_of_empty.
  - intros sel fileName blob. rewrite downloaded_handleDownloadFiles.
    rewrite list_elem_of_omap.
    intros (f & [_ [Hsel Hf]%list_elem_of_filter]%list_elem_of_filter & Hentry).
    apply downloadEntry_Some in Hentry as [Hblob _]. by exists f.
  - unfold handleSelectAll. rewrite size_empty. case_bool_decide as Hlen.
    + symmetry in Hlen. apply length_zero_iff_nil in Hlen. by rewrite Hlen.
    + f_equal. apply filter_all_id, Forall_forall. intros f Hf.
      apply elem_of_list_to_set. by apply list_elem_of_fmap_2.
Qed.

End Selection.

(* ===================================================================== *)
(** * Further properties of downloads and names *)
(* ===================================================================== *)

Section MoreDownloads.

Implicit Types (f : ProcessedFile) (files : list ProcessedFile)
  (settings : ConversionSettings).

Lemma rawDownload_ready settings f :
  isReady f →
  ∃ blob, outputBlob f = Some blob
          ∧ downloadEntry settings f = Some (downloadFileName settings f, blob)
          ∧ rawDownload settings f
            = [SaveAs blob (downloadFileName settings f); Pause 300].
Proof.
  intros [_ [blob Hblob]]. exists blob. unfold rawDownload, downloadEntry.
  by rewrite Hblob.
Qed.

(** X17. For the same files and settings, the archive download makes its
    [zip.file] calls with the same names and blobs, in the same order, as
    the raw download makes its [saveAs] calls: one call per ready file.
    The raw download follows each [saveAs] with the 300 ms pause; the
    archive download is a single [saveAs], of the archive built from those
    calls.  What the archive keeps of two calls that give one name is
    JSZip's to say, and is not stated here. *)
Theorem download_modes_agree settings now files :
  downloaded (handleDownloadFiles settings now files Zip)
  = downloaded (handleDownloadFiles settings now files Raw)
  ∧ handleDownloadFiles settings now files Raw
    = mjoin ((λ call, [SaveAs call.2 call.1; Pause 300])
               <$> downloaded (handleDownloadFiles settings now files Raw))
  ∧ length (downloaded (handleDownloadFiles settings now files Raw))
    = length (filter isReady files)
  ∧ (filter isReady files ≠ [] →
     ∃ calls,
       handleDownloadFiles settings now files Zip
       = [SaveZip calls (zipFileName now)]
       ∧ calls = downloaded (handleDownloadFiles settings now files Raw)
       ∧ length calls = length (filter isReady files)).
Proof.
  assert (∀ l, Forall isReady l →
               mjoin (rawDownload settings <$> l)
               = mjoin ((λ call, [SaveAs call.2 call.1; Pause 300])
                          <$> omap (downloadEntry settings) l)
               ∧ length (omap (downloadEntry settings) l) = length l)
    as Hraw.
  { induction 1 as [|f l Hf _ [IH1 IH2]]; [done|].
    destruct (rawDownload_ready settings f Hf) as (blob & _ & Hentry & Hsave).
    assert (omap (downloadEntry settings) (f :: l)
            = (downloadFileName settings f, blob)
                :: omap (downloadEntry settings) l) as ->
      by (cbn [omap list_omap]; by rewrite Hentry).
    change (mjoin (rawDownload settings <$> f :: l))
      with (rawDownload settings f ++ mjoin (rawDownload settings <$> l)).
    rewrite Hsave, IH1. cbn [length]. by rewrite IH2. }
  assert (Forall isReady (filter isReady files)) as Hready.
  { apply Forall_forall. by intros f [? _]%list_elem_of_filter. }
  destruct (Hraw _ Hready) as [Hsaves Hlen].
  rewrite !downloaded_handleDownloadFiles.
  split; [done|]. split; [|split; [done|]].
  - unfold handleDownloadFiles.
    destruct (filter isReady files) as [|f ready] eqn:Heq; [done|].
    cbn [length Nat.eqb]. exact Hsaves.
  - intros Hne. unfold handleDownloadFiles.
    destruct (filter isReady files) as [|f ready] eqn:Heq; [done|].
    cbn [length Nat.eqb]. by eexists.
Qed.

Lemma download_modes_agree_witness :
  handleDownloadFiles Samples.numbered 42 Samples.files Zip
  = [SaveZip [(lit "README_3.webp", [Byte.xff])]
       (lit "pixmorph_converted_42.zip")].
Proof.
  destruct (download_modes_agree Samples.numbered 42 Samples.files)
    as (_ & _ & _ & Hzip).
  destruct Hzip as (calls & Heq & _ & _); [discriminate|].
  vm_compute in Heq. vm_compute. reflexivity.
Defined.

(** Two ready files that bear one output name give two [zip.file] calls
    under that name. *)
Example zip_calls_may_repeat_a_name :
  handleDownloadFiles initialSettings 42
    [withCompleted [Byte.x01] (lit "trip") Samples.twinA;
     withCompleted [Byte.x02] (lit "trip") Samples.readme] Zip
  = [SaveZip [(lit "trip.jpg", [Byte.x01]); (lit "trip.jpg", [Byte.x02])]
       (lit "pixmorph_converted_42.zip")].
Proof. vm_compute. reflexivity. Qed.

End MoreDownloads.

Section MoreNames.

Implicit Types (f g : ProcessedFile) (settings : ConversionSettings)
  (s : jsstring).

Lemma extension_has_no_dot fmt : DOT ∉ getExtensionFromMime fmt.
Proof. destruct fmt; decide_by_computation. Qed.

Lemma getExtensionFromMime_inj fmt1 fmt2 :
  getExtensionFromMime fmt1 = getExtensionFromMime fmt2 → fmt1 = fmt2.
Proof. by destruct fmt1, fmt2. Qed.

(** X18. Taking a download name and dropping its extension the way the
    renaming logic does gives back the name the file was converted under:
    a converted file that is fed back in keeps its base name. *)
Theorem download_name_round_trip settings f :
  originalBaseOf (downloadFileName settings f) = newNameText f.
Proof.
  unfold downloadFileName.
  rewrite originalBaseOf_textBeforeLastDot.
  apply textBeforeLastDot_with_dot, extension_has_no_dot.
Qed.

(** X19. The name a file is downloaded under depends on the settings
    through the format alone: two settings give the same name exactly when
    they have the same format, whatever their renaming fields. *)
Theorem download_name_follows_format settings1 settings2 f :
  downloadFileName settings1 f = downloadFileName settings2 f
  ↔ format settings1 = format settings2.
Proof.
  unfold downloadFileName. split.
  - intros [= Hext]%app_inv_head. by apply getExtensionFromMime_inj.
  - by intros ->.
Qed.

(** X20. In a file name with a dot, the original base is the text before
    the last dot: a name that starts with its only dot has an empty base,
    and earlier dots stay in the base. *)
Theorem original_base_is_text_before_last_dot stem ext :
  DOT ∉ ext →
  originalBaseOf (stem ++ DOT :: ext) = stem
  ∧ originalBaseOf (DOT :: ext) = [].
Proof.
  intros Hext. rewrite !originalBaseOf_textBeforeLastDot. split.
  - by apply textBeforeLastDot_with_dot.
  - by apply (textBeforeLastDot_with_dot []).
Qed.

Lemma original_base_is_text_before_last_dot_witness :
  originalBaseOf (lit "archive.tar" ++ DOT :: lit "gz") = lit "archive.tar".
Proof.
  apply (original_base_is_text_before_last_dot (lit "archive.tar") (lit "gz")).
  decide_by_computation.
Defined.

Lemma lit_inj (a b : string) : lit a = lit b → a = b.
Proof.
  unfold lit. revert b. induction a as [|c a IH]; intros [|d b]; try done.
  cbn. intros [= Hc Hab]. f_equal; [|by apply IH].
  rewrite <- (ascii_N_embedding c), <- (ascii_N_embedding d). by rewrite Hc.
Qed.

Lemma natToString_inj (n m : nat) : natToString n = natToString m → n = m.
Proof.
  unfold natToString. intros Heq%lit_inj.
  assert (∀ k, Nat.to_uint k ≠ Decimal.Nil) as Hnonnil.
  { intros k. rewrite <- (DecimalNat.Unsigned.of_to k) at 1.
    rewrite DecimalNat.Unsigned.to_of. apply DecimalFacts.unorm_nonnil. }
  apply DecimalNat.Unsigned.to_uint_inj.
  pose proof (NilZero.usu _ (Hnonnil n)) as Hn.
  pose proof (NilZero.usu _ (Hnonnil m)) as Hm.
  rewrite Heq in Hn. congruence.
Qed.

Lemma string_of_uint_digits (d : Decimal.uint) :
  UNDERSCORE ∉ lit (NilEmpty.string_of_uint d).
Proof.
  induction d; cbn; [apply not_elem_of_nil|..];
    (apply not_elem_of_cons; split; [done|exact IHd]).
Qed.

Lemma natToString_digits (n : nat) : UNDERSCORE ∉ natToString n.
Proof.
  unfold natToString, NilZero.string_of_uint.
  destruct (Nat.to_uint n) eqn:Hd; try (rewrite <- Hd; apply string_of_uint_digits).
  decide_by_computation.
Qed.

(** A string splits at its last separator in one way only. *)
Lemma last_sep_unique sep (l1 l2 r1 r2 : jsstring) :
  sep ∉ r1 → sep ∉ r2 →
  l1 ++ sep :: r1 = l2 ++ sep :: r2 → l1 = l2 ∧ r1 = r2.
Proof.
  intros H1 H2 Heq.
  assert (l1 = l2) as ->.
  { apply (f_equal reverse) in Heq.
    rewrite !reverse_app, !reverse_cons, <- !app_assoc in Heq. cbn in Heq.
    apply (f_equal (dropWhile (λ c, negb (c =? sep)%N))) in Heq.
    rewrite !dropWhile_not_sep in Heq by (by rewrite elem_of_reverse).
    injection Heq as Heq. by apply (inj reverse). }
  split; [done|]. apply app_inv_head in Heq. by injection Heq.
Qed.

(** The numbered base names computed for two different places of the
    array differ, whatever the original names and the override. *)
Lemma outputBaseName_numbered_inj settings f g i j :
  useSequentialNumbering settings = true →
  outputBaseName settings f i = outputBaseName settings g j →
  i = j.
Proof.
  unfold outputBaseName. intros -> Heq.
  apply last_sep_unique in Heq as [_ Heq]; [|apply natToString_digits..].
  apply natToString_inj in Heq. lia.
Qed.

Lemma outputBaseName_resetError settings f i :
  outputBaseName settings (resetError f) i = outputBaseName settings f i.
Proof. unfold outputBaseName. by rewrite originalFile_resetError. Qed.

(** X21. With sequential numbering and files of distinct ids, two
    different files that one run converts end that run with different
    output names, [<base>_<n>] with their own places in the array, and are
    downloaded under different file names, whatever their original names
    and the override.  (A file the run skips because it is completed keeps
    the name an earlier run gave it, and is not spoken of here.) *)
Theorem numbered_names_are_distinct env settings t files settled
    i j f g blobF blobG :
  NoDup (id <$> files) →
  settlingOrder files settled →
  useSequentialNumbering settings = true →
  files !! i = Some f →
  files !! j = Some g →
  i ≠ j →
  status f ≠ COMPLETED →
  status g ≠ COMPLETED →
  convertImage env (originalFile f) settings = Resolved blobF →
  convertImage env (originalFile g) settings = Resolved blobG →
  ∃ f' g',
    startProcessing env settings t settled files !! i = Some f'
    ∧ startProcessing env settings t settled files !! j = Some g'
    ∧ newName f' = Some (outputBaseName settings f i)
    ∧ newName g' = Some (outputBaseName settings g j)
    ∧ newName f' ≠ newName g'
    ∧ ∀ current, downloadFileName current f' ≠ downloadFileName current g'.
Proof.
  intros Hids Hperm Hnum Hi Hj Hij Hf Hg HconvF HconvG.
  rewrite (lookup_startProcessing env settings t files settled Hids Hperm
             i f Hi),
          (lookup_startProcessing env settings t files settled Hids Hperm
             j g Hj).
  eexists _, _. split; [reflexivity|]. split; [reflexivity|].
  unfold fileOutcome.
  rewrite !bool_decide_eq_false_2
    by (by apply status_resetError_not_completed).
  rewrite !originalFile_resetError, HconvF, HconvG, !outputBaseName_resetError.
  assert (outputBaseName settings f i ≠ outputBaseName settings g j) as Hne.
  { intros Heq. by apply Hij, (outputBaseName_numbered_inj settings f g). }
  split; [done|]. split; [done|].
  split; [cbn [newName withCompleted]; congruence|].
  intros current. unfold downloadFileName, newNameText.
  cbn [newName withCompleted]. by intros Heq%app_inv_tail.
Qed.

Lemma numbered_names_are_distinct_witness :
  ∃ f' g',
    startProcessing Samples.browser Samples.numbered Samples.t
      [(1, Samples.readme); (0, Samples.waiting)]
      [Samples.waiting; Samples.readme] !! 0 = Some f'
    ∧ startProcessing Samples.browser Samples.numbered Samples.t
        [(1, Samples.readme); (0, Samples.waiting)]
        [Samples.waiting; Samples.readme] !! 1 = Some g'
    ∧ newName f' = Some (lit "trip_1")
    ∧ newName g' = Some (lit "trip_2")
    ∧ newName f' ≠ newName g'.
Proof.
  destruct (numbered_names_are_distinct Samples.browser Samples.numbered
              Samples.t [Samples.waiting; Samples.readme]
              [(1, Samples.readme); (0, Samples.waiting)]
              0 1 Samples.waiting Samples.readme
              [Byte.x89; Byte.x50] [Byte.x89; Byte.x50])
    as (f' & g' & Hf' & Hg' & HnameF & HnameG & Hne & _).
  - decide_by_computation.
  - unfold settlingOrder. vm_compute. apply Permutation_swap.
  - reflexivity.
  - reflexivity.
  - reflexivity.
  - discriminate.
  - discriminate.
  - discriminate.
  - reflexivity.
  - reflexivity.
  - exists f', g'. split; [exact Hf'|]. split; [exact Hg'|].
    split; [by rewrite HnameF|]. split; [by rewrite HnameG|]. exact Hne.
Defined.

Lemma dropWhile_nil_all {A} (p : A → bool) (l : list A) :
  dropWhile p l = [] → Forall (λ x, p x = true) l.
Proof.
  induction l as [|x l IH]; [done|]. cbn.
  destruct (p x) eqn:Hx; [|done]. intros Hl. constructor; [done|by apply IH].
Qed.

Lemma dropWhile_head {A} (p : A → bool) (l : list A) x l' :
  dropWhile p l = x :: l' → p x = false.
Proof.
  induction l as [|y l IH]; [done|]. cbn.
  destruct (p y) eqn:Hy; [done|]. by intros [= <- _].
Qed.

(** The override counts as empty exactly when it holds whitespace only. *)
Lemma trim_nil_iff s :
  trim s = [] ↔ Forall (λ c, isWhiteSpace c = true) s.
Proof.
  split; [|apply trim_whitespace_only].
  unfold trim, trimEnd, trimStart. intros Hnil.
  apply (f_equal reverse) in Hnil. rewrite reverse_involutive in Hnil.
  cbn in Hnil. apply dropWhile_nil_all in Hnil.
  rewrite Forall_forall in Hnil.
  destruct (dropWhile isWhiteSpace s) as [|c rest] eqn:Hdrop.
  - by apply dropWhile_nil_all.
  - apply dropWhile_head in Hdrop as Hc.
    rewrite Hnil in Hc; [done|]. rewrite elem_of_reverse. left.
Qed.

(** X22. An override that holds a character other than whitespace decides
    the base name alone: the original file name plays no part, so that
    without sequential numbering every file of the batch gets the same
    output name, the trimmed override. *)
Theorem override_replaces_original_names settings f g i :
  (∃ c, c ∈ baseFilename settings ∧ isWhiteSpace c = false) →
  outputBaseName settings f i = outputBaseName settings g i
  ∧ (useSequentialNumbering settings = false →
     ∀ j, outputBaseName settings f i = trim (baseFilename settings)
          ∧ outputBaseName settings g j = trim (baseFilename settings)).
Proof.
  intros (c & Hc & Hws).
  assert (truthy (trim (baseFilename settings)) = true) as Htruthy.
  { destruct (trim (baseFilename settings)) eqn:Htrim; [|done].
    apply trim_nil_iff in Htrim. rewrite Forall_forall in Htrim.
    rewrite (Htrim c Hc) in Hws. done. }
  unfold outputBaseName. rewrite Htruthy. split; [done|].
  by intros ->.
Qed.

Lemma override_replaces_original_names_witness :
  outputBaseName (withNaming JPEG (lit " out ") false initialSettings)
    Samples.waiting 0
  = outputBaseName (withNaming JPEG (lit " out ") false initialSettings)
      Samples.failed 1.
Proof.
  destruct (override_replaces_original_names
              (withNaming JPEG (lit " out ") false initialSettings)
              Samples.waiting Samples.failed 0) as [_ Hsame].
  - exists 111%N. split; [decide_by_computation|reflexivity].
  - destruct (Hsame eq_refl 1) as [-> ->]. reflexivity.
Defined.

End MoreNames.

(* ===================================================================== *)
(** * Further properties of the conversion engine *)
(* ===================================================================== *)

Section MoreConversion.

Implicit Types (x y : number) (settings : ConversionSettings).

Lemma SFcompare_antisym (a b : spec_float) :
  SFcompare b a = CompOpp <$> SFcompare a b.
Proof.
  destruct a as [sa|sa| |sa ma ea], b as [sb|sb| |sb mb eb]; cbn;
    try done; try (by destruct sa); try (by destruct sb);
    try (by destruct sa, sb).
  pose proof (Pos.compare_cont_antisym ma mb Eq) as Hm. cbn in Hm.
  destruct sa, sb; try done; rewrite (Z.compare_antisym ea eb);
    destruct (ea ?= eb)%Z; cbn; try done; rewrite <- Hm;
    by destruct (Pos.compare_cont Eq ma mb).
Qed.

Lemma SFcompare_finite_Eq s m e (b : spec_float) :
  SFcompare (S754_finite s m e) b = Some Eq → b = S754_finite s m e.
Proof.
  destruct b as [sb|sb| |sb mb eb]; cbn; try done;
    try (by destruct s); try (by destruct sb).
  destruct s, sb; try done.
  - destruct (e ?= eb)%Z eqn:He; try done.
    apply Z.compare_eq in He as ->.
    destruct (Pos.compare_cont Eq m mb) eqn:Hm; try done.
    by apply Pos.compare_eq in Hm as ->.
  - destruct (e ?= eb)%Z eqn:He; try done.
    apply Z.compare_eq in He as ->.
    destruct (Pos.compare_cont Eq m mb) eqn:Hm; try done.
    by apply Pos.compare_eq in Hm as ->.
Qed.

Lemma atLeastOne_not_nan x : atLeastOne x = true → isNaN x = false.
Proof.
  unfold atLeastOne, isNaN, is_nan. rewrite leb_spec, FloatAxioms.eqb_spec.
  unfold SFleb, SFeqb. intros Hle.
  rewrite SFcompare_refl; [done|]. intros Hnan. by rewrite Hnan in Hle.
Qed.

(** [Math.max(1, x)] is [x] itself when [x] is at least 1. *)
Lemma mathMax_1_id x : atLeastOne x = true → mathMax 1 x = x.
Proof.
  intros Hle. pose proof (atLeastOne_not_nan x Hle) as Hnan.
  unfold mathMax. rewrite Hnan. change (isNaN 1%float) with false. cbn [orb].
  destruct (1 <? x)%float eqn:Hlt; [done|].
  unfold atLeastOne in Hle. rewrite leb_spec in Hle. rewrite ltb_spec in Hlt.
  rewrite ltb_spec. unfold SFleb, SFltb in *.
  rewrite (SFcompare_antisym (Prim2SF 1) (Prim2SF x)).
  destruct (SFcompare (Prim2SF 1) (Prim2SF x)) as [[]|] eqn:Hcmp; try done.
  cbn. change (isNegZero 1%float) with false. cbv iota.
  apply Prim2SF_inj. symmetry.
  change (Prim2SF 1) with (S754_finite false 4503599627370496 (-52)) in *.
  by apply SFcompare_finite_Eq in Hcmp.
Qed.

(** ... and 1 when [x] is a number below 1. *)
Lemma mathMax_1_floor x :
  isNaN x = false → atLeastOne x = false → mathMax 1 x = 1%float.
Proof.
  intros Hnan Hlt. unfold mathMax. rewrite Hnan.
  change (isNaN 1%float) with false. cbn [orb].
  destruct (1 <? x)%float eqn:H1x.
  - apply ltb_leb in H1x. unfold atLeastOne in Hlt. congruence.
  - by destruct (x <? 1)%float.
Qed.

Lemma mathMax_1_clampedFrom x : clampedFrom x (mathMax 1 x).
Proof.
  unfold clampedFrom. destruct (isNaN x) eqn:Hnan.
  - left. split; [done|]. by apply mathMax_1_nan.
  - right. destruct (atLeastOne x) eqn:Hle.
    + left. split; [done|]. by apply mathMax_1_id.
    + right. repeat split. by apply mathMax_1_floor.
Qed.

(** X23. The safety check leaves alone every dimension that is at least 1,
    raises to 1 every number below 1 (zero and negative values included),
    and turns NaN into NaN; applying it twice is applying it once. *)
Theorem clamp_only_raises_small_sizes (size : number * number) :
  clampedFrom size.1 (clampSize size).1
  ∧ clampedFrom size.2 (clampSize size).2
  ∧ clampSize (clampSize size) = clampSize size.
Proof.
  split; [apply mathMax_1_clampedFrom|]. split; [apply mathMax_1_clampedFrom|].
  assert (∀ x, mathMax 1 (mathMax 1 x) = mathMax 1 x) as Hidem.
  { intros x.
    destruct (mathMax_1_clampedFrom x) as [[_ ->]|[[Hle ->]|(_ & _ & ->)]];
      [reflexivity|by apply mathMax_1_id|reflexivity]. }
  unfold clampSize. cbn [fst snd]. by rewrite !Hidem.
Qed.

(** X24. [convertImage] resolves exactly when the file is read, the image
    decodes, the canvas gives a 2D context and the encoding gives a blob,
    and then with that blob; it rejects with 'Could not get canvas context'
    when the context is missing, and every rejection is either the failed
    read or an Error with one of three messages.  The canvas is sized and
    drawn at the target size and is filled white for JPEG only. *)
Theorem convertImage_outcomes env file settings :
  (∀ blob,
     convertImage env file settings = Resolved blob
     ↔ ∃ dataUrl img,
         readAsDataURL env file = Some dataUrl
         ∧ loadImage env dataUrl = Some img
         ∧ getContext2d env (canvasWidth (renderCanvas img settings))
             (canvasHeight (renderCanvas img settings)) = true
         ∧ toBlob env (renderCanvas img settings) (format settings)
             (quality settings) = Some blob)
  ∧ (∀ dataUrl img,
       readAsDataURL env file = Some dataUrl →
       loadImage env dataUrl = Some img →
       getContext2d env (canvasWidth (renderCanvas img settings))
         (canvasHeight (renderCanvas img settings)) = false →
       convertImage env file settings
       = Rejected (ErrorObject (lit "Could not get canvas context")))
  ∧ (∀ r,
       convertImage env file settings = Rejected r →
       (r = NotAnError ∧ readAsDataURL env file = None)
       ∨ r = ErrorObject (lit "Failed to load image")
       ∨ r = ErrorObject (lit "Could not get canvas context")
       ∨ r = ErrorObject (lit "Conversion failed"))
  ∧ (∀ img,
       (canvasWidth (renderCanvas img settings),
        canvasHeight (renderCanvas img settings)) = targetSize img settings
       ∧ (drawnWidth (renderCanvas img settings),
          drawnHeight (renderCanvas img settings)) = targetSize img settings
       ∧ drawnImage (renderCanvas img settings) = img
       ∧ (whiteBackground (renderCanvas img settings) = true
          ↔ format settings = JPEG)).
Proof.
  split; [|split; [|split]].
  - intros blob. unfold convertImage. split.
    + destruct (readAsDataURL env file) as [dataUrl|] eqn:Hread; [|done].
      destruct (loadImage env dataUrl) as [img|] eqn:Hload; [|done].
      destruct (getContext2d env _ _) eqn:Hctx; [|done].
      destruct (toBlob env _ _ _) as [b|] eqn:Hblob; [|done].
      intros [= <-]. by exists dataUrl, img.
    + intros (dataUrl & img & -> & -> & -> & ->). done.
  - intros dataUrl img Hread Hload Hctx. unfold convertImage.
    by rewrite Hread, Hload, Hctx.
  - intros r. unfold convertImage.
    destruct (readAsDataURL env file) as [dataUrl|]; [|intros [= <-]; by left].
    destruct (loadImage env dataUrl) as [img|];
      [|intros [= <-]; right; by left].
    destruct (getContext2d env _ _);
      [|intros [= <-]; right; right; by left].
    destruct (toBlob env _ _ _); [done|].
    intros [= <-]. right. right. by right.
  - intros img. unfold renderCanvas.
    destruct (targetSize img settings) as [targetWidth targetHeight]. cbn.
    repeat split; try done; by destruct (format settings).
Qed.

End MoreConversion.
